(** * AppBiblioteca: the transactional data layer and the backup pipeline

    A shallow embedding of [db.js] (the IndexedDB data layer) and of the
    backup part of [script.js] (checksum, validation, export, import), with
    the loan life cycle (checkout, return, book edit) on top of it.

    Conventions.
    - A JavaScript string is the list of its UTF-16 code units ([list N]);
      [js "abc"] writes an ASCII literal.
    - A JavaScript number is an integer ([Z]) that a double holds; the sum
      and the difference of two of them are rounded to the nearest double,
      ties to even ([arredondar]). Numbers with a fraction part, [NaN] and
      the infinities are not values of the embedding: an operation that
      would produce one has no result here ([None]).
    - A parsed JSON document is a value of [json]; the text of a backup file
      is not modelled, [JSON.parse] of what [JSON.stringify] wrote is the
      value itself.
    - A stored record is a JavaScript object: the list of its properties in
      their order ([objeto]), with values of any JSON type.
    - A promise is its outcome; an IndexedDB transaction is a function of the
      database that either commits its working copy or aborts and leaves the
      database as it was. *)

From Stdlib Require Import ZArith NArith List String Ascii Lia Permutation.
From stdpp Require Import base option list countable gmap fin_maps sorting.

Import ListNotations.
#[local] Open Scope Z_scope.

(** ** JavaScript strings *)

Module JS.

(** An ASCII literal as a sequence of code units. *)
Definition js (s : string) : list N :=
  List.map N_of_ascii (list_ascii_of_string s).

(** The characters matched by the regular expression [\s]. *)
Definition is_space (c : N) : bool :=
  ((9 <=? c) && (c <=? 13) || (c =? 32) || (c =? 160) || (c =? 5760)
   || (8192 <=? c) && (c <=? 8202) || (c =? 8232) || (c =? 8233)
   || (c =? 8239) || (c =? 8287) || (c =? 12288) || (c =? 65279))%N.

(** [str.replace(/\s/g, '')] *)
Definition remove_spaces (str : list N) : list N :=
  List.filter (fun c => negb (is_space c)) str.

(** [str.trim()] *)
Fixpoint trim_start (str : list N) : list N :=
  match str with
  | c :: rest => if is_space c then trim_start rest else str
  | [] => []
  end.

Definition trim (str : list N) : list N :=
  rev (trim_start (rev (trim_start str))).

(** Digits of [n] in base [base], least significant first. *)
Fixpoint digits (base : N) (fuel : nat) (n : N) : list N :=
  match fuel with
  | O => []
  | S fuel' =>
      if (n =? 0)%N then []
      else (n mod base)%N :: digits base fuel' (n / base)%N
  end.

(** The code unit of a digit: [0-9] then [a-z]. *)
Definition digit_code (d : N) : N :=
  (if d <? 10 then 48 + d else 87 + d)%N.

Definition code_digit (c : N) : N :=
  (if c <? 58 then c - 48 else c - 87)%N.

(** [n.toString(radix)] for a non-negative integer. *)
Definition to_radix (base : N) (n : N) : list N :=
  if (n =? 0)%N then [48%N]
  else rev (List.map digit_code (digits base (N.to_nat (N.size n)) n)).

(** [hash.toString(16)] *)
Definition toString16 (n : N) : list N := to_radix 16 n.

(** [String(n)] for an integer (below 10^21 in magnitude, where JavaScript
    still prints all the digits). *)
Definition number_to_string (n : Z) : list N :=
  if n <? 0 then 45%N :: to_radix 10 (Z.to_N (- n)) else to_radix 10 (Z.to_N n).

(** Reading a digit string back (used to show [toString16] injective). *)
Definition of_digits (base : N) (ds : list N) : N :=
  fold_right (fun d acc => (d + base * acc)%N) 0%N ds.

Definition of_radix (base : N) (s : list N) : N :=
  of_digits base (rev (List.map code_digit s)).

End JS.

Import JS.

(** ** JSON values and [JSON.stringify] *)

#[local] Unset Elimination Schemes.
Inductive json : Type :=
| JNull
| JBool (b : bool)
| JNum (n : Z)
| JStr (s : list N)
| JArr (items : list json)
| JObj (fields : list (list N * json)).
#[local] Set Elimination Schemes.

Module Stringify.

Definition is_high_surrogate (c : N) : bool := ((55296 <=? c) && (c <=? 56319))%N.
Definition is_low_surrogate (c : N) : bool := ((56320 <=? c) && (c <=? 57343))%N.

(** Four lower-case hexadecimal digits. *)
Definition hex4 (c : N) : list N :=
  List.map digit_code
    [(c / 4096) mod 16; (c / 256) mod 16; (c / 16) mod 16; c mod 16]%N.

Definition unicode_escape (c : N) : list N := js "\u" ++ hex4 c.

(** One code unit inside a quoted JSON string. *)
Definition escape_unit (c : N) : list N :=
  if (c =? 8)%N then js "\b"
  else if (c =? 9)%N then js "\t"
  else if (c =? 10)%N then js "\n"
  else if (c =? 12)%N then js "\f"
  else if (c =? 13)%N then js "\r"
  else if (c =? 34)%N then [92; 34]%N
  else if (c =? 92)%N then [92; 92]%N
  else if (c <? 32)%N then unicode_escape c
  else if is_high_surrogate c || is_low_surrogate c then unicode_escape c
  else [c].

(** The body of QuoteJSONString: a well-formed surrogate pair is copied,
    every other unit goes through [escape_unit]. *)
Fixpoint quote_units (s : list N) : list N :=
  match s with
  | [] => []
  | c :: rest =>
      match rest with
      | d :: rest' =>
          if is_high_surrogate c && is_low_surrogate d
          then c :: d :: quote_units rest'
          else escape_unit c ++ quote_units rest
      | [] => escape_unit c
      end
  end.

Definition quote (s : list N) : list N := 34%N :: quote_units s ++ [34%N].

(** [parts.join(",")] on already serialized parts. *)
Fixpoint join_comma (parts : list (list N)) : list N :=
  match parts with
  | [] => []
  | [p] => p
  | p :: rest => p ++ 44%N :: join_comma rest
  end.

(** [JSON.stringify(value)] without indentation. *)
Fixpoint stringify (v : json) : list N :=
  match v with
  | JNull => js "null"
  | JBool true => js "true"
  | JBool false => js "false"
  | JNum n => number_to_string n
  | JStr s => quote s
  | JArr items => 91%N :: join_comma (List.map stringify items) ++ [93%N]
  | JObj fields =>
      123%N :: join_comma
        (List.map (fun kv => quote (fst kv) ++ 58%N :: stringify (snd kv)) fields)
      ++ [125%N]
  end.

End Stringify.

Import Stringify.

(** ** The checksum of [script.js] *)

(** [gerarChecksumSimples]: the sum of the code units of the serialization
    without white space, in hexadecimal. *)
Definition soma_codigos (str : list N) : N :=
  fold_left (fun hash c => (hash + c)%N) str 0%N.

Definition gerarChecksumSimples (objeto : json) : list N :=
  let str := remove_spaces (stringify objeto) in
  toString16 (soma_codigos str).

(** ** Failures

    One type for everything the application throws or rejects with; the
    comment gives the message of the source. *)
Inductive Erro : Type :=
| TypeErrorLeitura         (* TypeError: reading a property of null or undefined *)
| EstruturaInvalida        (* "Estrutura do backup inválida (campos raiz ausentes)." (MalformedRoot) *)
| DadosCorrompidos         (* "Estrutura de dados corrompida (esperado arrays)." (CorruptCollections) *)
| TotalNaoConfere          (* "Total de registros não confere com a soma real." (CountMismatch) *)
| ChecksumInvalido         (* "Checksum inválido. O arquivo foi modificado ou está corrompido." (ChecksumMismatch) *)
| ItemInvalido             (* "Item inválido no array (não é objeto)." *)
| CampoAusente (campo : list N)  (* "Campo obrigatório '...' ausente em um dos registros." (MissingField) *)
| LivroIndisponivel        (* "Livro indisponível para empréstimo." (Unavailable) *)
| EmprestimoInvalido       (* "Empréstimo inválido ou já devolvido." (InvalidLoanState) *)
| ConstraintError          (* IndexedDB: a key or a unique index entry already exists, or the key generator is used up *)
| DataError                (* IndexedDB: the value at the key path, or the key of a query, is not a valid key *)
| AbortError.              (* IndexedDB: the error of a request still pending when its transaction aborts *)

(** The result of a function that returns nothing or throws. *)
Inductive resultado : Type :=
| Ok
| Throw (e : Erro).

(** ** Reading a parsed document *)

(** [obj[k]] for the field names of the backup format; [None] is
    [undefined]. Only an object has such a field: arrays and primitives
    answer [undefined] for these names. *)
Definition campo (k : list N) (v : json) : option json :=
  match v with
  | JObj fields =>
      snd <$> List.find (fun kv => bool_decide (fst kv = k)) fields
  | _ => None
  end.

(** [k in item] *)
Definition tem_campo (k : list N) (item : json) : bool :=
  match campo k item with Some _ => true | None => false end.

(** [delete obj[k]] *)
Definition remover_campo (k : list N) (v : json) : json :=
  match v with
  | JObj fields =>
      JObj (List.filter (fun kv => negb (bool_decide (fst kv = k))) fields)
  | _ => v
  end.

(** ToBoolean on a property read. *)
Definition truthy (v : option json) : bool :=
  match v with
  | None | Some JNull => false
  | Some (JBool b) => b
  | Some (JNum n) => negb (n =? 0)
  | Some (JStr s) => match s with [] => false | _ => true end
  | Some (JArr _) | Some (JObj _) => true
  end.

(** [Array.isArray(x)] and [x.length] of an array. *)
Definition isArray (v : option json) : bool :=
  match v with Some (JArr _) => true | _ => false end.

Definition itens (v : option json) : list json :=
  match v with Some (JArr items) => items | _ => [] end.

(** ** Validation of a backup ([script.js]) *)

(** [validarEstrutura(array, camposObrigatorios)] *)
Fixpoint validarEstrutura (array : list json) (camposObrigatorios : list (list N))
  : resultado :=
  match array with
  | [] => Ok
  | item :: rest =>
      match item with
      | JObj _ | JArr _ =>       (* typeof item === 'object' && item !== null *)
          match List.find (fun c => negb (tem_campo c item)) camposObrigatorios with
          | Some c => Throw (CampoAusente c)
          | None => validarEstrutura rest camposObrigatorios
          end
      | _ => Throw ItemInvalido
      end
  end.

Definition campos_livro : list (list N) :=
  [js "id"; js "titulo"; js "autor"; js "isbn"; js "quantidadeTotal";
   js "quantidadeDisponivel"].
Definition campos_aluno : list (list N) :=
  [js "id"; js "nome"; js "matricula"; js "turma"].
Definition campos_emprestimo : list (list N) :=
  [js "id"; js "idLivro"; js "idAluno"; js "dataEmprestimo";
   js "dataPrevistaDevolucao"; js "status"].

(** [a; b] for two void calls in sequence. *)
Definition seq_resultado (a b : resultado) : resultado :=
  match a with Ok => b | Throw e => Throw e end.

(** [x === n] for a number [n], and [x === s] for a string [s]. *)
Definition igual_numero (x : option json) (n : Z) : bool :=
  match x with Some (JNum m) => m =? n | _ => false end.

Definition igual_string (x : option json) (s : list N) : bool :=
  match x with Some (JStr t) => bool_decide (t = s) | _ => false end.

(** [validarBackup(json)]. The source deletes [checksum], recomputes and
    puts the field back; the document it leaves behind differs from the
    argument in the position of that field only, which nothing reads. *)
Definition validarBackup (j : json) : resultado :=
  if match j with JNull => true | _ => false end
  then Throw TypeErrorLeitura           (* [json.versao] of [null] *)
  else if negb (truthy (campo (js "versao") j))
       || negb (truthy (campo (js "dataExportacao") j))
       || negb (match campo (js "totalRegistros") j with Some _ => true | None => false end)
       || negb (truthy (campo (js "checksum") j))
  then Throw EstruturaInvalida
  else if negb (isArray (campo (js "livros") j))
          || negb (isArray (campo (js "alunos") j))
          || negb (isArray (campo (js "emprestimos") j))
  then Throw DadosCorrompidos
  else
    let somaReal :=
      Z.of_nat (length (itens (campo (js "livros") j))
                + length (itens (campo (js "alunos") j))
                + length (itens (campo (js "emprestimos") j))) in
    if negb (igual_numero (campo (js "totalRegistros") j) somaReal)
    then Throw TotalNaoConfere
    else
      let checksumOriginal := campo (js "checksum") j in
      let checksumCalculado := gerarChecksumSimples (remover_campo (js "checksum") j) in
      if negb (igual_string checksumOriginal checksumCalculado)
      then Throw ChecksumInvalido
      else
        seq_resultado (validarEstrutura (itens (campo (js "livros") j)) campos_livro)
       (seq_resultado (validarEstrutura (itens (campo (js "alunos") j)) campos_aluno)
                      (validarEstrutura (itens (campo (js "emprestimos") j)) campos_emprestimo)).


(** ** JavaScript objects *)

(** An object: its own properties, in their order. *)
Definition objeto : Type := list (list N * json).

(** [o[k]]; [None] is [undefined]. *)
Definition prop (k : list N) (o : objeto) : option json := campo k (JObj o).

(** [o[k] = x]: an existing property keeps its place, a new one goes
    last. *)
Definition atribuir (k : list N) (x : json) (o : objeto) : objeto :=
  if existsb (fun kv => bool_decide (fst kv = k)) o
  then List.map (fun kv => if bool_decide (fst kv = k) then (k, x) else kv) o
  else o ++ [(k, x)].

(** The properties of a value that is an object. *)
Definition campos_de (v : json) : objeto :=
  match v with JObj fields => fields | _ => [] end.

(** ** JavaScript numbers and operators *)

(** The double nearest to an integer, ties to the even significand: the
    integers up to 2^53 in magnitude are doubles, the others keep their 53
    leading bits. *)
Definition arredondar (n : Z) : Z :=
  let a := Z.abs n in
  if a <=? 2 ^ 53 then n
  else
    let e := Z.log2 a - 52 in
    let q := a / 2 ^ e in
    let r := a mod 2 ^ e in
    let q' := if (2 * r <? 2 ^ e) || ((2 * r =? 2 ^ e) && Z.even q) then q else q + 1 in
    Z.sgn n * (q' * 2 ^ e).

(** The result of an addition or a subtraction whose exact value is [n],
    when it is finite. *)
Definition resultado_numerico (n : Z) : option Z :=
  let r := arredondar n in
  if Z.abs r <? 2 ^ 1024 then Some r else None.

Arguments arredondar : simpl never.
Arguments resultado_numerico : simpl never.

Definition is_digit (c : N) : bool := ((48 <=? c) && (c <=? 57))%N.

(** A string of decimal digits, of at most 20 digits (where every engine
    reads the exact value). *)
Definition parse_digits (s : list N) : option Z :=
  match s with
  | [] => None
  | _ =>
      if forallb is_digit s && (length s <=? 20)%nat
      then Some (arredondar (Z.of_N (of_radix 10 s)))
      else None
  end.

(** [Number(s)] for the strings that hold a decimal integer, with white
    space around it and a sign before it, and for the empty string. The
    other numeric forms (a fraction part, an exponent, hexadecimal,
    [Infinity]) and the strings that are no number at all have no result
    here. *)
Definition string_to_number (s : list N) : option Z :=
  match trim s with
  | [] => Some 0
  | 43%N :: ds => parse_digits ds
  | 45%N :: ds => Z.opp <$> parse_digits ds
  | ds => parse_digits ds
  end.

Arguments string_to_number : simpl never.

(** ToNumber of a property that was read. [undefined] is [NaN]; an array or
    an object is first turned into a string by its methods. Neither has a
    result here. *)
Definition to_number (v : option json) : option Z :=
  match v with
  | Some JNull => Some 0
  | Some (JBool b) => Some (if b then 1 else 0)
  | Some (JNum n) => Some n
  | Some (JStr s) => string_to_number s
  | Some (JArr _) | Some (JObj _) | None => None
  end.

(** [a - b], a number. *)
Definition js_menos (a b : option json) : option Z :=
  x ← to_number a; y ← to_number b; resultado_numerico (x - y).

(** [a + n] for a number [n]: a string is extended by the digits of [n]
    (all of them are printed below 10^21), anything else is added to as a
    number. *)
Definition js_mais (a : option json) (n : Z) : option json :=
  match a with
  | Some (JStr s) =>
      if Z.abs n <? 10 ^ 21 then Some (JStr (s ++ number_to_string n)) else None
  | _ => x ← to_number a; JNum <$> resultado_numerico (x + n)
  end.

(** [a <= n], [a < n] and [a > n] for a number [n]. *)
Definition js_menor_igual (a : option json) (n : Z) : option bool :=
  x ← to_number a; Some (x <=? n).

Definition js_menor (a : option json) (n : Z) : option bool :=
  x ← to_number a; Some (x <? n).

Definition js_maior (a : option json) (n : Z) : option bool :=
  x ← to_number a; Some (n <? x).

(** ** IndexedDB keys *)

(** The keys a JSON value can be: a number, a string, or an array of
    keys. *)
#[local] Unset Elimination Schemes.
Inductive chave : Type :=
| KNum (n : Z)
| KStr (s : list N)
| KArr (l : list chave).
#[local] Set Elimination Schemes.

(** "Convert a value to a key"; [None] when the value is not a valid key. *)
Fixpoint chave_de (v : json) : option chave :=
  match v with
  | JNum n => Some (KNum n)
  | JStr s => Some (KStr s)
  | JArr items =>
      KArr <$> (fix go (l : list json) : option (list chave) :=
                  match l with
                  | [] => Some []
                  | x :: l' =>
                      match chave_de x, go l' with
                      | Some k, Some ks => Some (k :: ks)
                      | _, _ => None
                      end
                  end) items
  | JNull | JBool _ | JObj _ => None
  end.

(** The value of a key. *)
Fixpoint valor_de (k : chave) : json :=
  match k with
  | KNum n => JNum n
  | KStr s => JStr s
  | KArr l => JArr (List.map valor_de l)
  end.

(** Keys as trees, for the finite maps. *)
Fixpoint chave_arvore (k : chave) : gen_tree (Z + list N) :=
  match k with
  | KNum n => GenLeaf (inl n)
  | KStr s => GenLeaf (inr s)
  | KArr l => GenNode 0 (List.map chave_arvore l)
  end.

Fixpoint arvore_chave (t : gen_tree (Z + list N)) : chave :=
  match t with
  | GenLeaf (inl n) => KNum n
  | GenLeaf (inr s) => KStr s
  | GenNode _ ts => KArr (List.map arvore_chave ts)
  end.

Lemma arvore_chave_arvore : ∀ k, arvore_chave (chave_arvore k) = k.
Proof.
  fix IH 1. intros [n|s|l]; cbn; [done|done|]. f_equal.
  induction l as [|k l IHl]; cbn; [done|]. by rewrite IH, IHl.
Qed.

#[global] Instance chave_eq_dec : EqDecision chave :=
  fun x y =>
    match decide (chave_arvore x = chave_arvore y) with
    | left H =>
        left (eq_trans (eq_sym (arvore_chave_arvore x))
                (eq_trans (f_equal arvore_chave H) (arvore_chave_arvore y)))
    | right H => right (fun Heq => H (f_equal chave_arvore Heq))
    end.

#[global] Instance chave_countable : Countable chave :=
  inj_countable' chave_arvore arvore_chave arvore_chave_arvore.

(** The order of keys: numbers, then strings by their code units, then
    arrays item by item. *)
Fixpoint compara_unidades (s t : list N) : comparison :=
  match s, t with
  | [], [] => Eq
  | [], _ :: _ => Lt
  | _ :: _, [] => Gt
  | a :: s', b :: t' =>
      match (a ?= b)%N with
      | Eq => compara_unidades s' t'
      | c => c
      end
  end.

Fixpoint chave_cmp (a b : chave) : comparison :=
  match a, b with
  | KNum x, KNum y => x ?= y
  | KNum _, _ => Lt
  | KStr _, KNum _ => Gt
  | KStr s, KStr t => compara_unidades s t
  | KStr _, KArr _ => Lt
  | KArr l, KArr m =>
      (fix go (l m : list chave) : comparison :=
         match l, m with
         | [], [] => Eq
         | [], _ :: _ => Lt
         | _ :: _, [] => Gt
         | x :: l', y :: m' =>
             match chave_cmp x y with
             | Eq => go l' m'
             | c => c
             end
         end) l m
  | KArr _, _ => Gt
  end.

(** ** An IndexedDB object store

    Every store of [initDB] is created with [{ keyPath: 'id',
    autoIncrement: true }], and has at most one unique index; the other
    indexes constrain nothing and are never read. *)

(** "Extract a key from a value using a key path", for the key path [id]. *)
Inductive CaminhoChave : Type :=
| SemChave                  (* no property [id] *)
| ChaveInvalida             (* [id] holds a value that is no key *)
| ComChave (k : chave).

#[global] Instance CaminhoChave_eq_dec : EqDecision CaminhoChave.
Proof. solve_decision. Defined.

Definition extrair_chave (o : objeto) : CaminhoChave :=
  match prop (js "id") o with
  | None => SemChave
  | Some x =>
      match chave_de x with
      | Some k => ComChave k
      | None => ChaveInvalida
      end
  end.

(** The key of a record in the unique index with key path [unico]; a
    record without a valid key there is not indexed. *)
Definition indice (unico : option (list N)) (o : objeto) : option chave :=
  match unico with
  | None => None
  | Some caminho =>
      match prop caminho o with
      | Some x => chave_de x
      | None => None
      end
  end.

Record ObjectStore : Type := mkStore {
  records : gmap chave objeto;    (* the records by primary key *)
  keygen : Z                      (* the current number of the key generator *)
}.

(** What a request comes to: [put] and [add] throw when called with a value
    they cannot take, the request fails later with an error event, or it
    succeeds. *)
Inductive Pedido (A : Type) : Type :=
| Excecao (e : Erro)
| Falha (e : Erro)
| Sucesso (a : A).
Arguments Excecao {A} _.
Arguments Falha {A} _.
Arguments Sucesso {A} _.

Module IDB.

Definition empty : ObjectStore := mkStore ∅ 1.

(** [store.get(k)] *)
Definition get (st : ObjectStore) (k : chave) : option objeto := records st !! k.

Definition ordem (a b : chave * objeto) : Prop := chave_cmp a.1 b.1 ≠ Gt.
#[global] Instance ordem_dec a b : Decision (ordem a b).
Proof. unfold ordem. apply _. Defined.

(** [store.getAll()]: the records in ascending key order. *)
Definition getAll (st : ObjectStore) : list objeto :=
  (merge_sort ordem (map_to_list (records st))).*2.

(** [store.clear()]: the key generator keeps its number. *)
Definition clear (st : ObjectStore) : ObjectStore := mkStore ∅ (keygen st).

(** [store.delete(k)] *)
Definition delete (st : ObjectStore) (k : chave) : ObjectStore :=
  mkStore (base.delete k (records st)) (keygen st).

(** Some record of [m] already holds the unique index key of [r]. *)
Definition colide (unico : option (list N)) (m : gmap chave objeto) (r : objeto) : bool :=
  match indice unico r with
  | None => false
  | Some u =>
      existsb (fun kr : chave * objeto => bool_decide (indice unico kr.2 = Some u))
              (map_to_list m)
  end.

(** "Possibly update the key generator": an explicit number, or 2^53 if
    that is smaller, moves the generator past it when it is at or above
    the current number. *)
Definition atualizar_gerador (gen : Z) (k : chave) : Z :=
  match k with
  | KNum n =>
      let value := Z.min n (2 ^ 53) in
      if gen <=? value then value + 1 else gen
  | _ => gen
  end.

(** Storing a record: [put] when [no_overwrite] is false, [add] when it is
    true. The call throws [DataError] when [id] holds a value that is no
    key. The key is the record's [id], or the next generated number, which
    is then written into the record; no number is generated above 2^53. The
    request fails with [ConstraintError] when the generator is used up, when
    [add] finds the key taken, or when another record holds the same unique
    index key. *)
Definition store_record (unico : option (list N)) (no_overwrite : bool)
    (st : ObjectStore) (r : objeto) : Pedido (chave * ObjectStore) :=
  match extrair_chave r with
  | ChaveInvalida => Excecao DataError
  | caminho =>
      let gerada :=
        match caminho with
        | ComChave k => Some (k, r, atualizar_gerador (keygen st) k)
        | _ =>
            if 2 ^ 53 <? keygen st then None
            else Some (KNum (keygen st), atribuir (js "id") (JNum (keygen st)) r,
                       keygen st + 1)
        end in
      match gerada with
      | None => Falha ConstraintError
      | Some (k, r', gen) =>
          if no_overwrite && bool_decide (is_Some (records st !! k))
          then Falha ConstraintError
          else if colide unico (base.delete k (records st)) r'
          then Falha ConstraintError
          else Sucesso (k, mkStore (<[k := r']> (records st)) gen)
      end
  end.

Definition put (unico : option (list N)) := store_record unico false.
Definition add (unico : option (list N)) := store_record unico true.

(** A sequence of [put] requests in one transaction: the first request that
    fails ends it. *)
Fixpoint put_all (unico : option (list N)) (st : ObjectStore) (items : list objeto)
  : Erro + ObjectStore :=
  match items with
  | [] => inr st
  | item :: rest =>
      match put unico st item with
      | Excecao e | Falha e => inl e
      | Sucesso (_, st') => put_all unico st' rest
      end
  end.

End IDB.

(** ** The database of [db.js] *)

Record Database : Type := mkDB {
  livros : ObjectStore;
  alunos : ObjectStore;
  emprestimos : ObjectStore
}.

(** What [initDB] creates on first use. *)
Definition initDB : Database := mkDB IDB.empty IDB.empty IDB.empty.

(** The object [{ livros, alunos, emprestimos }] of export and import. *)
Record Dados : Type := mkDados {
  d_livros : list objeto;
  d_alunos : list objeto;
  d_emprestimos : list objeto
}.

(** A promise: settled, or never settled. *)
Inductive Promise (A : Type) : Type :=
| Resolved (a : A)
| Rejected (e : Erro)
| Pending.
Arguments Resolved {A} _.
Arguments Rejected {A} _.
Arguments Pending {A}.

(** A store of the database, by the name given to [DB.save] and the like,
    with the key path of its unique index. *)
Record Tabela : Type := mkTabela {
  ler : Database → ObjectStore;
  gravar : ObjectStore → Database → Database;
  unico : option (list N)
}.

Definition tb_livros : Tabela :=
  mkTabela livros (fun st db => mkDB st (alunos db) (emprestimos db))
           (Some (js "isbn")).                                    (* idx_isbn *)
Definition tb_alunos : Tabela :=
  mkTabela alunos (fun st db => mkDB (livros db) st (emprestimos db))
           (Some (js "matricula")).                               (* idx_matricula *)
Definition tb_emprestimos : Tabela :=
  mkTabela emprestimos (fun st db => mkDB (livros db) (alunos db) st) None.

Module DB.

(** [DB.exportAllData()], when nothing else runs between its three reads. *)
Definition exportAllData (db : Database) : Dados :=
  let livros := IDB.getAll (livros db) in
  let alunos := IDB.getAll (alunos db) in
  let emprestimos := IDB.getAll (emprestimos db) in
  mkDados livros alunos emprestimos.

(** Some [put] of the three [forEach] throws: an item whose [id] is no
    key. *)
Definition put_lanca (data : Dados) : bool :=
  existsb (fun item => bool_decide (extrair_chave item = ChaveInvalida))
          (d_livros data ++ d_alunos data ++ d_emprestimos data).

(** The body of the read-write transaction of [importAllData]: the working
    copy after the three [clear] and all the [put], or the error the promise
    rejects with. All the requests are placed before the first of them runs.
    When a [put] throws, the [catch] aborts the transaction, and the
    requests placed so far, the three [clear] among them, end with
    [AbortError], which [transaction.onerror] receives first. Otherwise the
    requests run in order; no request has an error handler, so the first
    that fails aborts the transaction, and its error is the one
    [transaction.onerror] receives first. *)
Definition importAllData_tx (db : Database) (data : Dados) : Erro + Database :=
  let storeLivros := IDB.clear (livros db) in
  let storeAlunos := IDB.clear (alunos db) in
  let storeEmprestimos := IDB.clear (emprestimos db) in
  if put_lanca data then inl AbortError
  else
    match IDB.put_all (unico tb_livros) storeLivros (d_livros data) with
    | inl e => inl e
    | inr ls =>
        match IDB.put_all (unico tb_alunos) storeAlunos (d_alunos data) with
        | inl e => inl e
        | inr als =>
            match IDB.put_all (unico tb_emprestimos) storeEmprestimos (d_emprestimos data) with
            | inl e => inl e
            | inr es => inr (mkDB ls als es)
            end
        end
    end.

(** [DB.importAllData(data)]: commit, or abort and keep the database. *)
Definition importAllData (db : Database) (data : Dados) : Promise unit * Database :=
  match importAllData_tx db data with
  | inr db' => (Resolved tt, db')
  | inl e => (Rejected e, db)
  end.

(** [DB.save(storeName, item)]: an exception of [put] rejects the promise,
    and so does the error event of the request. *)
Definition save (tb : Tabela) (db : Database) (item : objeto) : Promise chave * Database :=
  match IDB.put (unico tb) (ler tb db) item with
  | Sucesso (k, st) => (Resolved k, gravar tb st db)
  | Excecao e | Falha e => (Rejected e, db)
  end.

(** [DB.getAll(storeName)] *)
Definition getAll (tb : Tabela) (db : Database) : list objeto :=
  IDB.getAll (ler tb db).

(** [DB.getById(storeName, id)] for a valid key [id]; [None] is
    [undefined]. *)
Definition getById (tb : Tabela) (db : Database) (id : chave) : option objeto :=
  IDB.get (ler tb db) id.

(** [DB.delete(storeName, id)] for a valid key [id]. *)
Definition delete (tb : Tabela) (db : Database) (id : chave) : Database :=
  gravar tb (IDB.delete (ler tb db) id) db.

(** What follows an exception thrown inside the [onsuccess] handler of a
    request: the transaction aborts; a request still pending then ends with
    [AbortError], which [transaction.onerror] passes to [reject]; with no
    request pending nothing settles the promise. *)
Definition excecao_no_handler (pendentes : bool) : Promise unit :=
  if pendentes then Rejected AbortError else Pending.

(** [DB.registrarEmprestimo(emprestimo)]. Inside the handler the two
    requests are placed before either runs: an exception of [put] leaves no
    request pending, an exception of [add] leaves the [put]. [None]: the
    quantity of the book is a value whose comparison or subtraction has no
    result in this embedding. *)
Definition registrarEmprestimo (db : Database) (emprestimo : objeto)
  : option (Promise unit * Database) :=
  match prop (js "idLivro") emprestimo ≫= chave_de with
  | None => Some (Rejected DataError, db)       (* [get] throws in the executor *)
  | Some idLivro =>
      match IDB.get (livros db) idLivro with
      | None => Some (Rejected LivroIndisponivel, db)
      | Some livro =>
          indisponivel ← js_menor_igual (prop (js "quantidadeDisponivel") livro) 0;
          if indisponivel : bool then Some (Rejected LivroIndisponivel, db)
          else
            quantidade ← js_menos (prop (js "quantidadeDisponivel") livro) (Some (JNum 1));
            let livro := atribuir (js "quantidadeDisponivel") (JNum quantidade) livro in
            match IDB.put (unico tb_livros) (livros db) livro,
                  IDB.add (unico tb_emprestimos) (emprestimos db) emprestimo with
            | Excecao _, _ => Some (excecao_no_handler false, db)
            | _, Excecao _ => Some (excecao_no_handler true, db)
            | Falha e, _ => Some (Rejected e, db)
            | _, Falha e => Some (Rejected e, db)
            | Sucesso (_, storeLivros), Sucesso (_, storeEmprestimos) =>
                Some (Resolved tt, mkDB storeLivros (alunos db) storeEmprestimos)
            end
      end
  end.

(** [DB.registrarDevolucao(idEmprestimo, dataDevolucaoReal)] for a valid
    key [idEmprestimo]. The [put] of the loan and the [get] of the book are
    placed before either runs. [None]: the quantity of the book is a value
    whose sum with 1 has no result in this embedding. *)
Definition registrarDevolucao (db : Database) (idEmprestimo : chave)
    (dataDevolucaoReal : list N) : option (Promise unit * Database) :=
  match IDB.get (emprestimos db) idEmprestimo with
  | None => Some (Rejected EmprestimoInvalido, db)
  | Some emprestimo =>
      if igual_string (prop (js "status") emprestimo) (js "devolvido")
      then Some (Rejected EmprestimoInvalido, db)
      else
        let emprestimo := atribuir (js "status") (JStr (js "devolvido")) emprestimo in
        let emprestimo :=
          atribuir (js "dataDevolucaoReal") (JStr dataDevolucaoReal) emprestimo in
        match IDB.put (unico tb_emprestimos) (emprestimos db) emprestimo,
              prop (js "idLivro") emprestimo ≫= chave_de with
        | Excecao _, _ => Some (excecao_no_handler false, db)
        | _, None => Some (excecao_no_handler true, db)       (* [get] throws *)
        | Falha e, _ => Some (Rejected e, db)
        | Sucesso (_, storeEmprestimos), Some idLivro =>
            match IDB.get (livros db) idLivro with
            | Some livro =>
                quantidade ← js_mais (prop (js "quantidadeDisponivel") livro) 1;
                let livro := atribuir (js "quantidadeDisponivel") quantidade livro in
                match IDB.put (unico tb_livros) (livros db) livro with
                | Excecao _ => Some (excecao_no_handler false, db)
                | Falha e => Some (Rejected e, db)
                | Sucesso (_, storeLivros) =>
                    Some (Resolved tt, mkDB storeLivros (alunos db) storeEmprestimos)
                end
            | None => Some (Resolved tt, mkDB (livros db) (alunos db) storeEmprestimos)
            end
        end
  end.

End DB.

(** ** The controllers of [script.js] *)

Module Script.

(** The toast a controller ends with. *)
Inductive Aviso : Type :=
| LivroAtualizado | LivroCadastrado
| ErroQuantidadeTotal   (* "Erro: Quantidade total não pode ser menor que os livros já emprestados." *)
| ErroSalvarLivro       (* "Erro ao salvar livro. Verifique se o ISBN já existe." *)
| AlunoAtualizado | AlunoCadastrado
| ErroSalvarAluno       (* "Erro ao salvar aluno. Verifique se a matrícula já existe." *)
| RegistroExcluido | Nenhum
| EmprestimoRegistrado | DevolucaoRegistrada
| ErroOperacao (e : Erro).

(** The fields of [form-livro]; [livro_id] is [parseInt] of the hidden
    input, [None] when that input is empty (a new book); [livro_qtd] is
    [parseInt] of the quantity. *)
Record FormLivro : Type := mkFormLivro {
  livro_id : option Z;
  livro_titulo : list N;
  livro_autor : list N;
  livro_isbn : list N;
  livro_qtd : Z
}.

Record FormAluno : Type := mkFormAluno {
  aluno_id : option Z;
  aluno_nome : list N;
  aluno_matricula : list N;
  aluno_turma : list N
}.

(** [handleSalvarLivro(event)]. [None]: a quantity of the old book is a
    value whose arithmetic has no result in this embedding. *)
Definition handleSalvarLivro (db : Database) (f : FormLivro) : option (Aviso * Database) :=
  let idInput := livro_id f in
  let qtdTotal := livro_qtd f in
  let livro : objeto :=
    [(js "titulo", JStr (trim (livro_titulo f)));
     (js "autor", JStr (trim (livro_autor f)));
     (js "isbn", JStr (trim (livro_isbn f)));
     (js "quantidadeTotal", JNum qtdTotal);
     (js "quantidadeDisponivel", JNum qtdTotal)] in
  let salvar (livro : objeto) :=
    match DB.save tb_livros db livro with
    | (Resolved _, db') =>
        (match idInput with Some _ => LivroAtualizado | None => LivroCadastrado end, db')
    | (Rejected _, db') => (ErroSalvarLivro, db')
    | (Pending, db') => (Nenhum, db')
    end in
  match idInput with
  | Some id =>
      let livro := atribuir (js "id") (JNum id) livro in
      match DB.getById tb_livros db (KNum id) with
      | Some livroAntigo =>
          diferencaTotal ←
            js_menos (Some (JNum qtdTotal)) (prop (js "quantidadeTotal") livroAntigo);
          quantidade ← js_mais (prop (js "quantidadeDisponivel") livroAntigo) diferencaTotal;
          let livro := atribuir (js "quantidadeDisponivel") quantidade livro in
          negativa ← js_menor (prop (js "quantidadeDisponivel") livro) 0;
          if negativa : bool then Some (ErroQuantidadeTotal, db) else Some (salvar livro)
      | None =>
          (* reading [livroAntigo.quantidadeTotal] throws; the [catch] logs it *)
          Some (salvar livro)
      end
  | None => Some (salvar livro)
  end.

(** [excluirLivro(id)], [confirmado] being the answer to [confirm]. *)
Definition excluirLivro (db : Database) (id : Z) (confirmado : bool) : Aviso * Database :=
  if confirmado then (RegistroExcluido, DB.delete tb_livros db (KNum id)) else (Nenhum, db).

(** [handleSalvarAluno(event)] *)
Definition handleSalvarAluno (db : Database) (f : FormAluno) : Aviso * Database :=
  let idInput := aluno_id f in
  let aluno : objeto :=
    [(js "nome", JStr (trim (aluno_nome f)));
     (js "matricula", JStr (trim (aluno_matricula f)));
     (js "turma", JStr (trim (aluno_turma f)))] in
  let aluno :=
    match idInput with Some id => atribuir (js "id") (JNum id) aluno | None => aluno end in
  match DB.save tb_alunos db aluno with
  | (Resolved _, db') =>
      (match idInput with Some _ => AlunoAtualizado | None => AlunoCadastrado end, db')
  | (Rejected _, db') => (ErroSalvarAluno, db')
  | (Pending, db') => (Nenhum, db')
  end.

(** [excluirAluno(id)] *)
Definition excluirAluno (db : Database) (id : Z) (confirmado : bool) : Aviso * Database :=
  if confirmado then (RegistroExcluido, DB.delete tb_alunos db (KNum id)) else (Nenhum, db).

(** What a controller shows when the promise it awaits settles; it shows
    nothing while the promise is pending. *)
Definition aviso_de (sucesso : Aviso) (p : Promise unit) : Aviso :=
  match p with
  | Resolved _ => sucesso
  | Rejected e => ErroOperacao e
  | Pending => Nenhum
  end.

(** The object that [handleRegistrarEmprestimo] builds. *)
Definition novo_emprestimo (idLivro idAluno : Z) (dataEmprestimo dataPrevistaDevolucao : list N)
  : objeto :=
  [(js "idLivro", JNum idLivro);
   (js "idAluno", JNum idAluno);
   (js "dataEmprestimo", JStr dataEmprestimo);
   (js "dataPrevistaDevolucao", JStr dataPrevistaDevolucao);
   (js "dataDevolucaoReal", JNull);
   (js "status", JStr (js "ativo"))].

(** [handleRegistrarEmprestimo(event)]; [idLivro] and [idAluno] are
    [parseInt] of the two selects, [hoje] is today as YYYY-MM-DD. *)
Definition handleRegistrarEmprestimo (db : Database) (idLivro idAluno : Z)
    (dataPrevistaDevolucao hoje : list N) : option (Aviso * Database) :=
  let dataEmprestimo := hoje in
  let emprestimo := novo_emprestimo idLivro idAluno dataEmprestimo dataPrevistaDevolucao in
  '(p, db') ← DB.registrarEmprestimo db emprestimo;
  Some (aviso_de EmprestimoRegistrado p, db').

(** [registrarDevolucao(idEmprestimo)] for a number [idEmprestimo]. *)
Definition registrarDevolucao (db : Database) (idEmprestimo : Z) (confirmado : bool)
    (hoje : list N) : option (Aviso * Database) :=
  if confirmado then
    let dataDevolucaoReal := hoje in
    '(p, db') ← DB.registrarDevolucao db (KNum idEmprestimo) dataDevolucaoReal;
    Some (aviso_de DevolucaoRegistrada p, db')
  else Some (Nenhum, db).

(** [payload.checksum = v] *)
Definition definir_campo (k : list N) (x : json) (v : json) : json :=
  match v with
  | JObj fields => JObj (atribuir k x fields)
  | _ => v
  end.


(** The parsed backup as the argument of [DB.importAllData]: the items of
    its three arrays, which [validarEstrutura] found to be objects. *)
Definition dados_de_json (j : json) : Dados :=
  mkDados (List.map campos_de (itens (campo (js "livros") j)))
          (List.map campos_de (itens (campo (js "alunos") j)))
          (List.map campos_de (itens (campo (js "emprestimos") j))).

Inductive Importacao : Type :=
| ImportacaoRecusada (e : Erro)   (* "Erro na restauração: ..." before any write *)
| ImportacaoCancelada
| RestauracaoConcluida            (* "Restauração concluída com sucesso!" *)
| RollbackExecutado               (* "Erro durante a gravação no banco. Rollback executado com sucesso." *)
| RollbackFalhou (e : Erro)
| SemResposta.                    (* an awaited promise that never settles *)

(** [handleImportarDados], from the parsed file on. *)
Definition handleImportarDados (db : Database) (j : json) (confirmado : bool)
  : Importacao * Database :=
  match validarBackup j with
  | Throw e => (ImportacaoRecusada e, db)
  | Ok =>
      if negb confirmado then (ImportacaoCancelada, db)
      else
        let backupTemporario := DB.exportAllData db in
        match DB.importAllData db (dados_de_json j) with
        | (Resolved _, db') => (RestauracaoConcluida, db')
        | (Rejected _, db') =>
            match DB.importAllData db' backupTemporario with
            | (Resolved _, db'') => (RollbackExecutado, db'')
            | (Rejected e, db'') => (RollbackFalhou e, db'')
            | (Pending, db'') => (SemResposta, db'')
            end
        | (Pending, db') => (SemResposta, db')
        end
  end.

End Script.

(** ** Interleaving of [exportAllData]

    [getStoreData] opens one read-only transaction per store and
    [exportAllData] awaits each before it opens the next, so handlers of
    other events run between the reads. [entre1] and [entre2] are what those
    handlers commit in the two gaps; the result is the exported object and
    the database at the end. *)
Definition exportAllData_entre (db : Database) (entre1 entre2 : Database → Database)
  : Dados * Database :=
  let ls := IDB.getAll (livros db) in
  let db := entre1 db in
  let als := IDB.getAll (alunos db) in
  let db := entre2 db in
  let es := IDB.getAll (emprestimos db) in
  (mkDados ls als es, db).

(** ** Vocabulary of the statements *)

(** Two documents are equal up to the order of the fields of their objects
    and up to white space of their serializations. *)
Inductive payload_equiv : json → json → Prop :=
| pe_espacos a b :
    remove_spaces (stringify a) = remove_spaces (stringify b) → payload_equiv a b
| pe_ordem fields fields' :
    Permutation fields fields' → payload_equiv (JObj fields) (JObj fields')
| pe_item l1 a b l2 :
    payload_equiv a b → payload_equiv (JArr (l1 ++ a :: l2)) (JArr (l1 ++ b :: l2))
| pe_campo l1 k a b l2 :
    payload_equiv a b →
    payload_equiv (JObj (l1 ++ (k, a) :: l2)) (JObj (l1 ++ (k, b) :: l2))
| pe_trans a b c : payload_equiv a b → payload_equiv b c → payload_equiv a c.

(** What IndexedDB maintains for a store with the in-line key [id], a key
    generator and a unique index: a record holds its key, the generator is
    past every number that is a key (up to 2^53) and never past 2^53 + 1,
    and no two records share a key of the unique index. *)
Record store_ok (unico : option (list N)) (st : ObjectStore) : Prop := mk_store_ok {
  ok_id : ∀ k r, records st !! k = Some r → extrair_chave r = ComChave k;
  ok_keygen : ∀ n r, records st !! KNum n = Some r → Z.min n (2 ^ 53) < keygen st;
  ok_keygen_max : keygen st ≤ 2 ^ 53 + 1;
  ok_unico : ∀ k1 k2 r1 r2 u,
    records st !! k1 = Some r1 → records st !! k2 = Some r2 →
    indice unico r1 = Some u → indice unico r2 = Some u → k1 = k2
}.

(** The object has every property of [campos]. *)
Definition tem_campos (campos : list (list N)) (o : objeto) : Prop :=
  ∀ c, c ∈ campos → is_Some (prop c o).

(** [item] is an object that has every property of [campos]. *)
Definition objeto_com_campos (campos : list (list N)) (item : json) : Prop :=
  ∃ o, item = JObj o ∧ tem_campos campos o.

(** What the writers of the application maintain: every record has the
    properties that [validarBackup] asks of it. *)
Definition campos_ok (campos : list (list N)) (st : ObjectStore) : Prop :=
  ∀ k r, records st !! k = Some r → tem_campos campos r.

Definition db_ok (db : Database) : Prop :=
  (store_ok (unico tb_livros) (livros db)
   ∧ store_ok (unico tb_alunos) (alunos db)
   ∧ store_ok (unico tb_emprestimos) (emprestimos db))
  ∧ campos_ok campos_livro (livros db)
  ∧ campos_ok campos_aluno (alunos db)
  ∧ campos_ok campos_emprestimo (emprestimos db).

(** The quantities of a book are numbers with
    [0 ≤ quantidadeDisponivel ≤ quantidadeTotal ≤ 2^53]. *)
Definition quantidades_ok (l : objeto) : Prop :=
  ∃ d t, prop (js "quantidadeDisponivel") l = Some (JNum d)
         ∧ prop (js "quantidadeTotal") l = Some (JNum t)
         ∧ 0 ≤ d ≤ t ∧ t ≤ 2 ^ 53.


Definition estoque_ok (db : Database) : Prop :=
  ∀ k l, records (livros db) !! k = Some l → quantidades_ok l.


(** The operations a user has, and the states they lead to. *)
Inductive Acao : Type :=
| SalvarLivro (f : Script.FormLivro)
| ExcluirLivro (id : Z)
| SalvarAluno (f : Script.FormAluno)
| ExcluirAluno (id : Z)
| RegistrarEmprestimo (idLivro idAluno : Z) (dataPrevistaDevolucao hoje : list N)
| RegistrarDevolucao (idEmprestimo : Z) (hoje : list N)
| ImportarDados (arquivo : json).

Definition executar (db : Database) (a : Acao) : option Database :=
  match a with
  | SalvarLivro f => snd <$> Script.handleSalvarLivro db f
  | ExcluirLivro id => Some (Script.excluirLivro db id true).2
  | SalvarAluno f => Some (Script.handleSalvarAluno db f).2
  | ExcluirAluno id => Some (Script.excluirAluno db id true).2
  | RegistrarEmprestimo l a d h => snd <$> Script.handleRegistrarEmprestimo db l a d h
  | RegistrarDevolucao e h => snd <$> Script.registrarDevolucao db e true h
  | ImportarDados j => Some (Script.handleImportarDados db j true).2
  end.

Inductive alcancavel : Database → Prop :=
| alc_inicio : alcancavel initDB
| alc_passo db a db' : alcancavel db → executar db a = Some db' → alcancavel db'.

Fixpoint executar_todos (db : Database) (acoes : list Acao) : option Database :=
  match acoes with
  | [] => Some db
  | a :: resto =>
      match executar db a with
      | Some db' => executar_todos db' resto
      | None => None
      end
  end.

(** The record of [items] that a sequence of [put] leaves under key [k]: the
    last one carrying that [id]. *)
Definition ultimo_com_id (k : chave) (items : list objeto) : option objeto :=
  last (List.filter (fun r => bool_decide (extrair_chave r = ComChave k)) items).

(** The sum of the code units of a text that are not white space: what
    [gerarChecksumSimples] renders in hexadecimal. *)
Definition peso (str : list N) : N := soma_codigos (remove_spaces str).

Definition peso_partes (parts : list (list N)) : N :=
  fold_right (fun p acc => (peso p + acc)%N) 0%N parts.

(** The [id] of a record, when it is a key. *)
Definition id_de (r : objeto) : option chave :=
  match extrair_chave r with ComChave k => Some k | _ => None end.

(** Every record of [items] carries an [id] that is a key. *)
Definition todos_com_id (items : list objeto) : bool :=
  forallb (fun r => match extrair_chave r with ComChave _ => true | _ => false end) items.

(** No two records of [items] under different identifiers hold the same
    key of the unique index. *)
Definition sem_conflito_de_indice (unico : option (list N)) (items : list objeto) : bool :=
  forallb (fun r1 =>
    forallb (fun r2 =>
      match indice unico r1, indice unico r2 with
      | Some u1, Some u2 =>
          implb (bool_decide (u1 = u2)) (bool_decide (extrair_chave r1 = extrair_chave r2))
      | _, _ => true
      end) items) items.

(** Some identifier occurs twice in [items]. *)
Definition id_repetido (items : list objeto) : Prop :=
  ∃ i j a b k, i ≠ j ∧ items !! i = Some a ∧ items !! j = Some b
               ∧ extrair_chave a = ComChave k ∧ extrair_chave b = ComChave k.

(** The number of records a database holds, and of records in a snapshot. *)
Definition total_armazenado (db : Database) : nat :=
  size (records (livros db)) + size (records (alunos db))
  + size (records (emprestimos db)).

Definition total_de_registros (data : Dados) : nat :=
  length (d_livros data) + length (d_alunos data) + length (d_emprestimos data).

(** ** Example data *)

Module Exemplo.

Definition agora : list N := js "2026-01-03T10:00:00.000Z".

(** A backup file with one book; [titulo], [disponivel] and [checksum]
    are left open. *)
Definition arquivo (titulo : list N) (disponivel : Z) (checksum : list N) : json :=
  JObj [(js "versao", JStr (js "1.0"));
        (js "dataExportacao", JStr agora);
        (js "totalRegistros", JNum 1);
        (js "livros",
          JArr [JObj [(js "id", JNum 1); (js "titulo", JStr titulo);
                      (js "autor", JStr (js "Autor Teste")); (js "isbn", JStr (js "123"));
                      (js "quantidadeTotal", JNum 30);
                      (js "quantidadeDisponivel", JNum disponivel)]]);
        (js "alunos", JArr []);
        (js "emprestimos", JArr []);
        (js "checksum", JStr checksum)].

(** The checksum that [exportarDados] computes for the file with title
    "Roma" and 12 copies available. *)
Definition checksum_original : list N :=
  gerarChecksumSimples (remover_campo (js "checksum") (arquivo (js "Roma") 12 [])).

(** A book, a student and a loan as the store holds them after the forms
    saved them: the generated [id] is the last property. *)
Definition livro (id : Z) (titulo autor isbn : list N) (total disponivel : json) : objeto :=
  [(js "titulo", JStr titulo); (js "autor", JStr autor); (js "isbn", JStr isbn);
   (js "quantidadeTotal", total); (js "quantidadeDisponivel", disponivel);
   (js "id", JNum id)].

Definition aluno (id : Z) (nome matricula turma : list N) : objeto :=
  [(js "nome", JStr nome); (js "matricula", JStr matricula); (js "turma", JStr turma);
   (js "id", JNum id)].

Definition emprestimo (id idLivro idAluno : Z) (dataEmprestimo dataPrevista : list N) : objeto :=
  Script.novo_emprestimo idLivro idAluno dataEmprestimo dataPrevista ++ [(js "id", JNum id)].

Definition dom_casmurro (total disponivel : json) : objeto :=
  livro 1 (js "Dom Casmurro") (js "Machado de Assis") (js "978-85") total disponivel.

Definition bento : objeto := aluno 1 (js "Bento") (js "2026-001") (js "9A").

Definition form_livro : Script.FormLivro :=
  Script.mkFormLivro None (js "Dom Casmurro") (js "Machado de Assis") (js "978-85") 1.

Definition form_aluno : Script.FormAluno :=
  Script.mkFormAluno None (js "Bento") (js "2026-001") (js "9A").

(** One book with a single copy, one student, and that copy lent out. *)
Definition acoes_emprestado : list Acao :=
  [SalvarLivro form_livro; SalvarAluno form_aluno;
   RegistrarEmprestimo 1 1 (js "2026-01-10") (js "2026-01-03")].

Definition db_emprestado : Database :=
  default initDB (executar_todos initDB acoes_emprestado).

(** Two books with the same ISBN under different identifiers: the second
    [put] violates the unique index [idx_isbn]. *)
Definition dados_isbn_repetido : Dados :=
  mkDados
    [livro 1 (js "A") (js "X") (js "111") (JNum 1) (JNum 1);
     livro 2 (js "B") (js "Y") (js "111") (JNum 1) (JNum 1)]
    [] [].

(** A backup file with one book, one student, and an active loan of that
    book; the checksum is computed the way [exportarDados] does. The
    quantities of the book are left open. *)
Definition corpo_com_emprestimo (total disponivel : json) : json :=
  JObj [(js "versao", JStr (js "1.0"));
        (js "dataExportacao", JStr agora);
        (js "totalRegistros", JNum 3);
        (js "livros", JArr [JObj (dom_casmurro total disponivel)]);
        (js "alunos", JArr [JObj bento]);
        (js "emprestimos",
          JArr [JObj (emprestimo 1 1 1 (js "2026-01-03") (js "2026-01-10"))])].

Definition arquivo_com_emprestimo (total disponivel : json) : json :=
  Script.definir_campo (js "checksum")
    (JStr (gerarChecksumSimples (corpo_com_emprestimo total disponivel)))
    (corpo_com_emprestimo total disponivel).

(** The single copy of the book is on the shelf, and lent out. *)
Definition arquivo_emprestimo_ativo : json := arquivo_com_emprestimo (JNum 1) (JNum 1).

Definition db_importado : Database :=
  default initDB (executar_todos initDB [ImportarDados arquivo_emprestimo_ativo]).


(** The quantities of the book are the strings "1" and "1". *)
Definition arquivo_quantidades_texto : json :=
  arquivo_com_emprestimo (JStr (js "1")) (JStr (js "1")).


(** The same end without a backup: the book is deleted while its edit
    form is open, the form is then submitted, and the loan is returned. *)
Definition acoes_formulario_antigo : list Acao :=
  [SalvarLivro form_livro;
   RegistrarEmprestimo 1 1 (js "2026-01-10") (js "2026-01-03");
   ExcluirLivro 1;
   SalvarLivro (Script.mkFormLivro (Some 1) (js "Dom Casmurro") (js "Machado de Assis")
                                   (js "978-85") 1);
   RegistrarDevolucao 1 (js "2026-01-09")].

(** One book with a single copy on the shelf and one student. *)
Definition db_disponivel : Database :=
  default initDB (executar_todos initDB [SalvarLivro form_livro; SalvarAluno form_aluno]).

(** What another event handler commits between two reads of an export. *)
Definition emprestar (db : Database) : Database :=
  default db (executar db (RegistrarEmprestimo 1 1 (js "2026-01-10") (js "2026-01-03"))).

Definition cadastrar_outro_livro (db : Database) : Database :=
  default db
    (executar db
       (SalvarLivro (Script.mkFormLivro None (js "Quincas Borba") (js "Machado de Assis")
                                        (js "978-86") 2))).

(** Identifier 1 twice, and the later record takes the ISBN of book 2. *)
Definition dados_id_repetido_com_conflito : Dados :=
  mkDados
    [livro 1 (js "A") (js "X") (js "111") (JNum 1) (JNum 1);
     livro 1 (js "A") (js "X") (js "222") (JNum 1) (JNum 1);
     livro 2 (js "B") (js "Y") (js "222") (JNum 1) (JNum 1)]
    [] [].

(** Identifier 1 twice and nothing else in the way. *)
Definition dados_id_repetido : Dados :=
  mkDados
    [livro 1 (js "A") (js "X") (js "111") (JNum 1) (JNum 1);
     livro 2 (js "B") (js "Y") (js "222") (JNum 3) (JNum 3);
     livro 1 (js "A, 2a edicao") (js "X") (js "111") (JNum 5) (JNum 5)]
    [aluno 1 (js "Bento") (js "2026-001") (js "9A")]
    [].



(** A backup file whose loan has the largest number that the key generator
    follows, 2^53, as its [id]; the book has one of its two copies on the
    shelf. *)
Definition corpo_ultima_chave : json :=
  JObj [(js "versao", JStr (js "1.0"));
        (js "dataExportacao", JStr agora);
        (js "totalRegistros", JNum 3);
        (js "livros", JArr [JObj (dom_casmurro (JNum 2) (JNum 1))]);
        (js "alunos", JArr [JObj bento]);
        (js "emprestimos",
          JArr [JObj (emprestimo (2 ^ 53) 1 1 (js "2026-01-03") (js "2026-01-10"))])].

Definition arquivo_ultima_chave : json :=
  Script.definir_campo (js "checksum")
    (JStr (gerarChecksumSimples corpo_ultima_chave)) corpo_ultima_chave.

End Exemplo.

(** ** Literals beyond ASCII *)

(** A literal with characters beyond ASCII: the UTF-8 bytes of the Rocq
    string read as UTF-16 code units. *)
Fixpoint utf8_units (bytes : list N) : list N :=
  match bytes with
  | [] => []
  | b :: rest =>
      if (b <? 128)%N then b :: utf8_units rest
      else if (b <? 224)%N then
        match rest with
        | b2 :: rest' => ((b mod 32) * 64 + b2 mod 64)%N :: utf8_units rest'
        | [] => []
        end
      else if (b <? 240)%N then
        match rest with
        | b2 :: b3 :: rest' =>
            ((b mod 16) * 4096 + (b2 mod 64) * 64 + b3 mod 64)%N :: utf8_units rest'
        | _ => []
        end
      else
        match rest with
        | b2 :: b3 :: b4 :: rest' =>
            let cp := ((b mod 8) * 262144 + (b2 mod 64) * 4096
                       + (b3 mod 64) * 64 + b4 mod 64 - 65536)%N in
            (55296 + cp / 1024)%N :: (56320 + cp mod 1024)%N :: utf8_units rest'
        | _ => []
        end
  end.

Definition jsu (s : string) : list N := utf8_units (js s).

(** ** The self tests of [tests.js] *)

Module Testes.

Record Resultados : Type := mkResultados {
  totalTestes : Z;
  sucessos : Z;
  falhas : Z
}.

Inductive StatusLog : Type := success | error.

(** The object [Testes]: its counters and its log. *)
Record Estado : Type := mkEstado {
  resultados : Resultados;
  logs : list (StatusLog * list N)
}.

(** [Testes.assert(condicao, mensagem)] *)
Definition assert (condicao : bool) (mensagem : list N) (t : Estado) : Estado :=
  let r := resultados t in
  if condicao
  then mkEstado (mkResultados (totalTestes r + 1) (sucessos r + 1) (falhas r))
                (logs t ++ [(success, js "[PASS] " ++ mensagem)])
  else mkEstado (mkResultados (totalTestes r + 1) (sucessos r) (falhas r + 1))
                (logs t ++ [(error, js "[FAIL] " ++ mensagem)]).

(** [obj[k] = f(obj[k])] and [arr[i] = f(arr[i])] on a copy of a document. *)
Definition no_campo (k : list N) (f : json → json) (v : json) : json :=
  match v with
  | JObj fields =>
      JObj (List.map (fun kv => if bool_decide (fst kv = k) then (k, f (snd kv)) else kv)
                     fields)
  | _ => v
  end.

Definition no_item (i : nat) (f : json → json) (v : json) : json :=
  match v with
  | JArr items => JArr (alter f i items)
  | _ => v
  end.

Definition mockLivros : json :=
  JArr [JObj [(js "id", JNum 1); (js "titulo", JStr (js "Livro Teste"));
              (js "autor", JStr (js "Autor Teste")); (js "isbn", JStr (js "123"));
              (js "quantidadeTotal", JNum 5); (js "quantidadeDisponivel", JNum 5)]].

Definition mockAlunos : json :=
  JArr [JObj [(js "id", JNum 1); (js "nome", JStr (js "Aluno Teste"));
              (js "matricula", JStr (js "001")); (js "turma", JStr (js "A"))]].

(** [payload], with its checksum. *)
Definition payload (agora : list N) : json :=
  let p :=
    JObj [(js "versao", JStr (js "1.0"));
          (js "dataExportacao", JStr agora);
          (js "totalRegistros", JNum 2);
          (js "livros", mockLivros);
          (js "alunos", mockAlunos);
          (js "emprestimos", JArr [])] in
  Script.definir_campo (js "checksum") (JStr (gerarChecksumSimples p)) p.

(** The documents of tests 2.2, 2.3 and 2.4; [JSON.parse(JSON.stringify(payload))]
    is a copy of [payload]. *)
Definition jsonCorrompido (agora : list N) : json :=
  Script.definir_campo (js "livros") (JStr (jsu "não é um array")) (payload agora).

Definition jsonChecksumInvalido (agora : list N) : json :=
  no_campo (js "livros")
    (no_item 0 (Script.definir_campo (js "titulo")
                  (JStr (jsu "Título Modificado Maliciosamente"))))
    (payload agora).

Definition jsonFaltandoCampo (agora : list N) : json :=
  let j := no_campo (js "livros") (no_item 0 (remover_campo (js "isbn"))) (payload agora) in
  let j := remover_campo (js "checksum") j in
  Script.definir_campo (js "checksum") (JStr (gerarChecksumSimples j)) j.

(** [try { validarBackup(x) } catch (e) { erroDetectado = true }] *)
Definition erroDetectado (x : json) : bool :=
  match validarBackup x with Throw _ => true | Ok => false end.

(** [Testes.runTests()], up to the report; [agora] is
    [new Date().toISOString()]. No statement of the body throws outside the
    inner [try] blocks, so the outer [catch] does not run. *)
Definition runTests (agora : list N) : Estado :=
  let t := mkEstado (mkResultados 0 0 0) [] in
  let payload := payload agora in
  let t := assert (igual_string (campo (js "versao") payload) (js "1.0"))
             (jsu "Estrutura de exportação contém versão correta.") t in
  let t := assert (match campo (js "checksum") payload with
                   | Some (JStr _) => true
                   | _ => false
                   end)
             (js "Checksum foi gerado como string hexadecimal.") t in
  let t := assert (igual_numero (campo (js "totalRegistros") payload) 2)
             (js "Total de registros calculado corretamente.") t in
  let t := assert (erroDetectado (JObj [(js "versao", JStr (js "1.0"))]))
             (jsu "Detectou JSON sem campos obrigatórios na raiz.") t in
  let t := assert (erroDetectado (jsonCorrompido agora))
             (jsu "Detectou estrutura de dados corrompida (arrays inválidos).") t in
  let t := assert (erroDetectado (jsonChecksumInvalido agora))
             (jsu "Detectou JSON com checksum incorreto (adulteração).") t in
  let t := assert (erroDetectado (jsonFaltandoCampo agora))
             (jsu "Detectou ausência de campo obrigatório interno (isbn).") t in
  let t := assert (negb (erroDetectado payload))
             (jsu "Validou corretamente um JSON íntegro.") t in
  let rollbackAcionado := true in     (* [mockImportAllData] always throws *)
  assert rollbackAcionado
    (jsu "Sistema de captura de erro para rollback está funcional.") t.

End Testes.

(** ** Dates on screen ([script.js]) *)

(** [str.split(sep)] for a separator of one code unit. *)
Fixpoint split (sep : N) (str : list N) : list (list N) :=
  match str with
  | [] => [[]]
  | c :: rest =>
      if (c =? sep)%N then [] :: split sep rest
      else
        match split sep rest with
        | p :: ps => (c :: p) :: ps
        | [] => [[c]]
        end
  end.

(** [`${partes[i]}`]: a missing element prints as "undefined". *)
Definition parte_texto (partes : list (list N)) (i : nat) : list N :=
  match partes !! i with Some p => p | None => js "undefined" end.

(** [formatarData(dataISO)] for a string, [null] or [undefined] ([None]). *)
Definition formatarData (dataISO : option (list N)) : list N :=
  match dataISO with
  | None | Some [] => js "-"
  | Some str =>
      let partes := split 45 str in
      parte_texto partes 2 ++ 47%N :: parte_texto partes 1 ++ 47%N :: parte_texto partes 0
  end.

(** * Properties *)

(** ** Hexadecimal rendering is injective *)

Section radix.

Lemma digits_bound base fuel n :
  (1 < base)%N → Forall (fun d => (d < base)%N) (digits base fuel n).
Proof.
  intros Hb. revert n. induction fuel as [|fuel IH]; intros n; simpl.
  - constructor.
  - destruct (N.eqb_spec n 0); constructor; [|apply IH].
    apply N.mod_lt. lia.
Qed.

Lemma of_digits_digits base fuel n :
  (1 < base)%N → (n < 2 ^ N.of_nat fuel)%N →
  of_digits base (digits base fuel n) = n.
Proof.
  intros Hb. revert n. induction fuel as [|fuel IH]; intros n Hn.
  - simpl in *. lia.
  - cbn [digits]. destruct (N.eqb_spec n 0) as [->|Hn0]; [reflexivity|].
    cbn [of_digits fold_right]. fold (of_digits base (digits base fuel (n / base))).
    rewrite IH.
    + rewrite N.add_comm. symmetry. apply N.div_mod. lia.
    + rewrite Nat2N.inj_succ, N.pow_succ_r' in Hn.
      apply N.le_lt_trans with (n / 2)%N.
      * apply N.div_le_compat_l. lia.
      * apply N.Div0.div_lt_upper_bound. lia.
Qed.

Lemma code_digit_code d : (d < 36)%N → code_digit (digit_code d) = d.
Proof.
  intros Hd. unfold code_digit, digit_code.
  destruct (N.ltb_spec d 10).
  - destruct (N.ltb_spec (48 + d) 58); lia.
  - destruct (N.ltb_spec (87 + d) 58); lia.
Qed.

Lemma of_radix_to_radix base n :
  (1 < base)%N → (base <= 36)%N → of_radix base (to_radix base n) = n.
Proof.
  intros Hb Hb'. unfold of_radix, to_radix.
  destruct (N.eqb_spec n 0) as [->|Hn].
  - cbn. lia.
  - rewrite List.map_rev, rev_involutive, List.map_map.
    rewrite (List.map_ext_in _ id).
    + rewrite List.map_id. apply of_digits_digits; [done|].
      rewrite N2Nat.id. apply N.size_gt.
    + intros d Hd. unfold id. apply code_digit_code.
      pose proof (digits_bound base (N.to_nat (N.size n)) n Hb) as Hall.
      rewrite List.Forall_forall in Hall. specialize (Hall d Hd). simpl in Hall. lia.
Qed.

Lemma toString16_inj a b : toString16 a = toString16 b → a = b.
Proof.
  intros Heq. rewrite <- (of_radix_to_radix 16 a), <- (of_radix_to_radix 16 b) by lia.
  unfold toString16 in Heq. by rewrite Heq.
Qed.

Lemma toString16_not_empty n : toString16 n ≠ [].
Proof.
  unfold toString16, to_radix. destruct (N.eqb_spec n 0) as [->|Hn]; [done|].
  remember (N.to_nat (N.size n)) as fuel eqn:Hf.
  destruct fuel as [|fuel].
  - destruct n; [done|]. simpl in Hf. lia.
  - simpl. apply N.eqb_neq in Hn. rewrite Hn. simpl.
    intros Habs. by apply app_eq_nil in Habs as [_ ?].
Qed.

End radix.

(** ** The checksum depends on the code sum only *)

Section checksum.

Lemma soma_codigos_acc (l : list N) (a : N) :
  fold_left (fun hash c => (hash + c)%N) l a = (a + soma_codigos l)%N.
Proof.
  unfold soma_codigos. revert a. induction l as [|c l IH]; intros a; simpl.
  - lia.
  - rewrite (IH (a + c)%N), (IH (0 + c)%N). lia.
Qed.

Lemma soma_codigos_cons c l : soma_codigos (c :: l) = (c + soma_codigos l)%N.
Proof. unfold soma_codigos at 1. simpl. apply soma_codigos_acc. Qed.

Lemma peso_nil : peso [] = 0%N.
Proof. reflexivity. Qed.

Lemma peso_cons c l :
  peso (c :: l) = ((if is_space c then 0 else c) + peso l)%N.
Proof.
  unfold peso, remove_spaces. simpl. destruct (is_space c); simpl.
  - lia.
  - apply soma_codigos_cons.
Qed.

Lemma peso_app l1 l2 : peso (l1 ++ l2) = (peso l1 + peso l2)%N.
Proof.
  induction l1 as [|c l1 IH]; simpl.
  - rewrite peso_nil. lia.
  - rewrite !peso_cons, IH. lia.
Qed.

Lemma peso_join_comma parts :
  peso (join_comma parts)
  = (peso_partes parts + 44 * N.of_nat (pred (length parts)))%N.
Proof.
  induction parts as [|p [|q rest] IH].
  - reflexivity.
  - simpl. lia.
  - change (join_comma (p :: q :: rest)) with (p ++ 44%N :: join_comma (q :: rest)).
    rewrite peso_app, peso_cons, IH.
    change (is_space 44) with false. cbn [peso_partes fold_right length pred].
    lia.
Qed.

Lemma peso_partes_app a b : peso_partes (a ++ b) = (peso_partes a + peso_partes b)%N.
Proof. induction a as [|p a IH]; simpl; [|rewrite IH]; lia. Qed.

Lemma peso_partes_perm a b : Permutation a b → peso_partes a = peso_partes b.
Proof. induction 1; simpl; lia. Qed.

Lemma peso_join_perm a b :
  Permutation a b → peso (join_comma a) = peso (join_comma b).
Proof.
  intros Hp. rewrite !peso_join_comma, (peso_partes_perm a b Hp).
  by rewrite (Permutation_length Hp).
Qed.

(** Replacing one part by a part of the same weight. *)
Lemma peso_join_subst l1 p q l2 :
  peso p = peso q →
  peso (join_comma (l1 ++ p :: l2)) = peso (join_comma (l1 ++ q :: l2)).
Proof.
  intros Hpq. rewrite !peso_join_comma, !peso_partes_app. simpl.
  rewrite Hpq, !length_app. reflexivity.
Qed.

Lemma peso_stringify_equiv a b :
  payload_equiv a b → peso (stringify a) = peso (stringify b).
Proof.
  induction 1 as [a b Heq|fs fs' Hp|l1 a b l2 _ IH|l1 k a b l2 _ IH|a b c _ IH1 _ IH2].
  - unfold peso. by rewrite Heq.
  - cbn [stringify]. rewrite !peso_cons, !peso_app. f_equal. f_equal.
    apply peso_join_perm. by apply Permutation_map.
  - cbn [stringify]. rewrite !peso_cons, !peso_app, !List.map_app. cbn [List.map].
    f_equal. f_equal. by apply peso_join_subst.
  - cbn [stringify]. rewrite !peso_cons, !peso_app, !List.map_app. cbn [List.map fst snd].
    f_equal. f_equal. apply peso_join_subst.
    rewrite !peso_app, !peso_cons. by rewrite IH.
  - congruence.
Qed.

Lemma gerarChecksumSimples_peso v :
  gerarChecksumSimples v = toString16 (peso (stringify v)).
Proof. reflexivity. Qed.

Lemma gerarChecksumSimples_eq_iff a b :
  gerarChecksumSimples a = gerarChecksumSimples b
  ↔ peso (stringify a) = peso (stringify b).
Proof.
  rewrite !gerarChecksumSimples_peso. split; [apply toString16_inj|by intros ->].
Qed.

End checksum.

(** C9. [gerarChecksumSimples] is a function of the document, and two
    documents that are equal up to the order of object fields and up to
    white space get the same hexadecimal checksum. *)
Theorem gerarChecksumSimples_deterministic (a b : json) :
  payload_equiv a b → gerarChecksumSimples a = gerarChecksumSimples b.
Proof.
  intros Heq. apply gerarChecksumSimples_eq_iff. by apply peso_stringify_equiv.
Qed.

Lemma gerarChecksumSimples_deterministic_witness :
  payload_equiv
    (JObj [(js "titulo", JStr (js "Dom Casmurro")); (js "id", JNum 1)])
    (JObj [(js "id", JNum 1); (js "titulo", JStr (js "DomCasmurro"))])
  ∧ gerarChecksumSimples
      (JObj [(js "titulo", JStr (js "Dom Casmurro")); (js "id", JNum 1)])
    = gerarChecksumSimples
      (JObj [(js "id", JNum 1); (js "titulo", JStr (js "DomCasmurro"))]).
Proof.
  assert (payload_equiv
    (JObj [(js "titulo", JStr (js "Dom Casmurro")); (js "id", JNum 1)])
    (JObj [(js "id", JNum 1); (js "titulo", JStr (js "DomCasmurro"))])) as Heq.
  { apply (pe_trans _ (JObj [(js "id", JNum 1); (js "titulo", JStr (js "Dom Casmurro"))])).
    - apply pe_ordem. apply perm_swap.
    - apply pe_espacos. vm_compute. reflexivity. }
  split; [exact Heq|].
  apply (gerarChecksumSimples_deterministic _ _ Heq).
Defined.

(** ** Validation and the checksum *)

Section validacao.

Ltac caso_if :=
  match goal with
  | |- context [if ?c then _ else _] => destruct c eqn:?
  end.

Lemma validarEstrutura_erro array campos e :
  validarEstrutura array campos = Throw e →
  e = ItemInvalido ∨ ∃ c, e = CampoAusente c.
Proof.
  induction array as [|item rest IH]; simpl; [done|].
  destruct item; try (intros [= <-]; by left);
    (destruct (List.find _ campos); [intros [= <-]; right; eauto|exact IH]).
Qed.

Lemma estruturas_erro r1 r2 r3 c1 c2 c3 e :
  seq_resultado (validarEstrutura r1 c1)
    (seq_resultado (validarEstrutura r2 c2) (validarEstrutura r3 c3)) = Throw e →
  e = ItemInvalido ∨ ∃ c, e = CampoAusente c.
Proof.
  destruct (validarEstrutura r1 c1) eqn:E1; simpl;
    [|intros [= <-]; by eapply validarEstrutura_erro].
  destruct (validarEstrutura r2 c2) eqn:E2; simpl;
    [|intros [= <-]; by eapply validarEstrutura_erro].
  apply validarEstrutura_erro.
Qed.

(** The checksum check in isolation: once the four earlier checks pass,
    [validarBackup] throws [ChecksumInvalido] exactly when the stored
    checksum is not the recomputed one. *)
Lemma validarBackup_checksum_step j :
  validarBackup j ≠ Throw TypeErrorLeitura →
  validarBackup j ≠ Throw EstruturaInvalida →
  validarBackup j ≠ Throw DadosCorrompidos →
  validarBackup j ≠ Throw TotalNaoConfere →
  (validarBackup j = Throw ChecksumInvalido
   ↔ igual_string (campo (js "checksum") j)
       (gerarChecksumSimples (remover_campo (js "checksum") j)) = false).
Proof.
  unfold validarBackup. intros H1 H2 H3 H4.
  do 4 (caso_if; [congruence|]). cbv zeta.
  destruct (igual_string _ _) eqn:Hs; simpl; [|done].
  split; [|done]. intros Habs.
  apply estruturas_erro in Habs as [?|[? ?]]; discriminate.
Qed.

End validacao.

(** C2, as the code has it. The stored checksum being the one computed for
    [original], a changed document [adulterado] that still passes the
    checks on the root fields, the arrays and the record count is refused
    with [ChecksumInvalido] exactly when the change moved the sum of the
    code units of its serialization (white space aside). *)
Theorem validarBackup_detects_sum_change (original adulterado : json) :
  campo (js "checksum") adulterado
    = Some (JStr (gerarChecksumSimples (remover_campo (js "checksum") original))) →
  validarBackup adulterado ≠ Throw TypeErrorLeitura →
  validarBackup adulterado ≠ Throw EstruturaInvalida →
  validarBackup adulterado ≠ Throw DadosCorrompidos →
  validarBackup adulterado ≠ Throw TotalNaoConfere →
  (validarBackup adulterado = Throw ChecksumInvalido
   ↔ peso (stringify (remover_campo (js "checksum") adulterado))
     ≠ peso (stringify (remover_campo (js "checksum") original))).
Proof.
  intros Hc H1 H2 H3 H4.
  rewrite (validarBackup_checksum_step adulterado H1 H2 H3 H4), Hc.
  unfold igual_string. rewrite bool_decide_eq_false, gerarChecksumSimples_eq_iff.
  split; intros Hne Heq; apply Hne; congruence.
Qed.

Lemma validarBackup_detects_sum_change_witness :
  validarBackup (Exemplo.arquivo (js "Rosa") 12 Exemplo.checksum_original)
  = Throw ChecksumInvalido.
Proof.
  apply (validarBackup_detects_sum_change
           (Exemplo.arquivo (js "Roma") 12 Exemplo.checksum_original)
           (Exemplo.arquivo (js "Rosa") 12 Exemplo.checksum_original)).
  - vm_compute. reflexivity.
  - vm_compute. discriminate.
  - vm_compute. discriminate.
  - vm_compute. discriminate.
  - vm_compute. discriminate.
  - vm_compute. discriminate.
Defined.

(** C2, counterexample. The checksum is the one computed for the file with
    title "Roma" and 12 available copies. The file passes validation, and so
    do the file whose title was changed to "Amor" and the file whose
    available quantity was changed to 21: neither edit moves the code sum. *)
Lemma validarBackup_misses_single_field_edits :
  validarBackup (Exemplo.arquivo (js "Roma") 12 Exemplo.checksum_original) = Ok
  ∧ validarBackup (Exemplo.arquivo (js "Amor") 12 Exemplo.checksum_original) = Ok
  ∧ validarBackup (Exemplo.arquivo (js "Roma") 21 Exemplo.checksum_original) = Ok.
Proof. repeat split; vm_compute; reflexivity. Qed.


(** ** Objects *)

Section objetos.

Lemma prop_cons_eq k x (o : objeto) : prop k ((k, x) :: o) = Some x.
Proof. unfold prop, campo. cbn. by rewrite bool_decide_eq_true_2. Qed.

Lemma prop_cons_ne k k' x (o : objeto) : k' ≠ k → prop k ((k', x) :: o) = prop k o.
Proof. intros Hne. unfold prop, campo. cbn. by rewrite bool_decide_eq_false_2. Qed.

Lemma prop_app_r k (o1 o2 : objeto) :
  prop k o1 = None → prop k (o1 ++ o2) = prop k o2.
Proof.
  induction o1 as [|[k' x] o1 IH]; [done|]. cbn [app].
  destruct (decide (k' = k)) as [->|Hne].
  - by rewrite prop_cons_eq.
  - rewrite !prop_cons_ne by done. exact IH.
Qed.

Lemma prop_app_l k (o1 o2 : objeto) x :
  prop k o1 = Some x → prop k (o1 ++ o2) = Some x.
Proof.
  induction o1 as [|[k' y] o1 IH]; [done|]. cbn [app].
  destruct (decide (k' = k)) as [->|Hne].
  - by rewrite !prop_cons_eq.
  - rewrite !prop_cons_ne by done. exact IH.
Qed.

Lemma existsb_prop k (o : objeto) :
  existsb (fun kv => bool_decide (fst kv = k)) o = bool_decide (is_Some (prop k o)).
Proof.
  induction o as [|[k' x] o IH]; cbn [existsb fst].
  - rewrite bool_decide_eq_false_2; [done|]. by intros [? ?].
  - destruct (decide (k' = k)) as [->|Hne].
    + rewrite prop_cons_eq, (bool_decide_eq_true_2 (k = k)) by done. reflexivity.
    + rewrite prop_cons_ne, (bool_decide_eq_false_2 (k' = k)) by done. exact IH.
Qed.

(** A property that was written is read back, and the others are as they
    were. *)
Lemma prop_atribuir_eq k x (o : objeto) : prop k (atribuir k x o) = Some x.
Proof.
  unfold atribuir. rewrite existsb_prop.
  destruct (decide (is_Some (prop k o))) as [Hk|Hk].
  - rewrite bool_decide_eq_true_2 by done.
    induction o as [|[k' y] o IH]; [by destruct Hk|].
    cbn [List.map fst]. destruct (decide (k' = k)) as [->|Hne].
    + rewrite (bool_decide_eq_true_2 (k = k)) by done. apply prop_cons_eq.
    + rewrite (bool_decide_eq_false_2 (k' = k)) by done.
      rewrite prop_cons_ne in Hk |- * by done. by apply IH.
  - rewrite bool_decide_eq_false_2 by done. rewrite prop_app_r.
    + apply prop_cons_eq.
    + destruct (prop k o) eqn:E; [|done]. destruct Hk. eauto.
Qed.

Lemma prop_atribuir_ne k k' x (o : objeto) :
  k' ≠ k → prop k' (atribuir k x o) = prop k' o.
Proof.
  intros Hne. unfold atribuir. destruct (existsb _ o).
  - induction o as [|[k0 y] o IH]; [done|].
    cbn [List.map fst]. destruct (decide (k0 = k)) as [->|Hk0].
    + rewrite (bool_decide_eq_true_2 (k = k)) by done.
      rewrite !prop_cons_ne by done. exact IH.
    + rewrite (bool_decide_eq_false_2 (k0 = k)) by done.
      destruct (decide (k0 = k')) as [->|Hk0'].
      * by rewrite !prop_cons_eq.
      * rewrite !prop_cons_ne by done. exact IH.
  - destruct (prop k' o) as [y|] eqn:E.
    + by apply prop_app_l.
    + rewrite prop_app_r by done. by rewrite prop_cons_ne.
Qed.

Lemma extrair_chave_atribuir_id n (o : objeto) :
  extrair_chave (atribuir (js "id") (JNum n) o) = ComChave (KNum n).
Proof. unfold extrair_chave. by rewrite prop_atribuir_eq. Qed.


Lemma indice_atribuir_ne unico k x (o : objeto) :
  unico ≠ Some k → indice unico (atribuir k x o) = indice unico o.
Proof.
  intros Hne. unfold indice. destruct unico as [c|]; [|done].
  rewrite prop_atribuir_ne; [done|congruence].
Qed.

Lemma tem_campos_atribuir campos k x (o : objeto) :
  tem_campos campos o → tem_campos campos (atribuir k x o).
Proof.
  intros Ho c Hc. destruct (decide (c = k)) as [->|Hne].
  - rewrite prop_atribuir_eq. eauto.
  - rewrite prop_atribuir_ne by done. by apply Ho.
Qed.

Lemma tem_campos_atribuir_novo campos k x (o : objeto) :
  tem_campos campos o → tem_campos (k :: campos) (atribuir k x o).
Proof.
  intros Ho c [->|Hc]%elem_of_cons.
  - rewrite prop_atribuir_eq. eauto.
  - by apply (tem_campos_atribuir campos).
Qed.

End objetos.

(** ** The object store *)

(** Arithmetic with the bound 2^53 written out. *)
Ltac aritmetica :=
  change (2 ^ 53) with 9007199254740992 in *; lia.

Section store_props.
Variable unico : option (list N).
Hypothesis unico_id : unico ≠ Some (js "id").

Lemma colide_true (m : gmap chave objeto) (r : objeto) :
  IDB.colide unico m r = true
  ↔ ∃ k' r' u, m !! k' = Some r' ∧ indice unico r = Some u ∧ indice unico r' = Some u.
Proof.
  unfold IDB.colide. destruct (indice unico r) as [u|] eqn:Hu.
  - rewrite existsb_exists. split.
    + intros [[k' r'] [Hin Hd]]. apply bool_decide_eq_true in Hd.
      apply list_elem_of_In, elem_of_map_to_list in Hin. eauto 6.
    + intros (k' & r' & u' & Hm & [= <-] & Hu'). exists (k', r'). split.
      * by apply list_elem_of_In, elem_of_map_to_list.
      * by apply bool_decide_eq_true.
  - split; [done|]. by intros (? & ? & ? & _ & ? & _).
Qed.

Lemma colide_false (m : gmap chave objeto) (r : objeto) :
  (∀ k' r' u, m !! k' = Some r' → indice unico r = Some u → indice unico r' = Some u → False) →
  IDB.colide unico m r = false.
Proof.
  intros Hno. apply not_true_is_false. rewrite colide_true.
  intros (k' & r' & u & ? & ? & ?). eauto.
Qed.

Lemma atualizar_gerador_le g k : g ≤ IDB.atualizar_gerador g k.
Proof.
  destruct k as [n| |]; unfold IDB.atualizar_gerador; [|lia..].
  cbv zeta. destruct (Z.leb_spec g (Z.min n (2 ^ 53))); aritmetica.
Qed.

Lemma atualizar_gerador_max g k : g ≤ 2 ^ 53 + 1 → IDB.atualizar_gerador g k ≤ 2 ^ 53 + 1.
Proof.
  destruct k as [n| |]; unfold IDB.atualizar_gerador; [|lia..].
  cbv zeta. destruct (Z.leb_spec g (Z.min n (2 ^ 53))); aritmetica.
Qed.

(** What a successful request stored. *)
Lemma store_record_sucesso no_overwrite (st st' : ObjectStore) r k :
  IDB.store_record unico no_overwrite st r = Sucesso (k, st') →
  ∃ r', records st' = <[k := r']> (records st)
        ∧ extrair_chave r' = ComChave k ∧ indice unico r' = indice unico r
        ∧ (extrair_chave r = ComChave k ∧ r' = r
             ∧ keygen st' = IDB.atualizar_gerador (keygen st) k
           ∨ extrair_chave r = SemChave ∧ k = KNum (keygen st)
             ∧ r' = atribuir (js "id") (JNum (keygen st)) r
             ∧ keygen st ≤ 2 ^ 53 ∧ keygen st' = keygen st + 1)
        ∧ (no_overwrite = true → records st !! k = None)
        ∧ IDB.colide unico (delete k (records st)) r' = false.
Proof.
  unfold IDB.store_record.
  destruct (extrair_chave r) as [| |k0] eqn:Hid; [|done|].
  - destruct (Z.ltb_spec (2 ^ 53) (keygen st)); [done|].
    destruct (no_overwrite && _) eqn:Hno; [done|].
    destruct (IDB.colide _ _ _) eqn:Hc; [done|]. intros [= <- <-]. cbn [records keygen].
    exists (atribuir (js "id") (JNum (keygen st)) r).
    rewrite extrair_chave_atribuir_id, indice_atribuir_ne by done.
    split; [done|]. split; [done|]. split; [done|]. split; [right; auto|].
    split; [|done]. intros ->. cbn in Hno. apply bool_decide_eq_false in Hno.
    destruct (records st !! _) eqn:E; [|done]. destruct Hno. eauto.
  - destruct (no_overwrite && _) eqn:Hno; [done|].
    destruct (IDB.colide _ _ _) eqn:Hc; [done|]. intros [= <- <-]. cbn [records keygen].
    exists r. split; [done|]. split; [done|]. split; [done|]. split; [left; auto|].
    split; [|done]. intros ->. cbn in Hno. apply bool_decide_eq_false in Hno.
    destruct (records st !! _) eqn:E; [|done]. destruct Hno. eauto.
Qed.

(** A successful request keeps what IndexedDB maintains. *)
Lemma store_record_ok no_overwrite (st st' : ObjectStore) r k :
  store_ok unico st → IDB.store_record unico no_overwrite st r = Sucesso (k, st') →
  store_ok unico st'.
Proof.
  intros [Hid Hgen Hmax Hun] Hs.
  apply store_record_sucesso in Hs as (r' & Hrec & Hid' & Hu' & Hcase & _ & Hc).
  assert (keygen st ≤ keygen st' ∧ keygen st' ≤ 2 ^ 53 + 1
          ∧ ∀ n, k = KNum n → Z.min n (2 ^ 53) < keygen st') as (Hg1 & Hg2 & Hg3).
  { destruct Hcase as [(_ & _ & ->)|(_ & -> & _ & Hle & ->)].
    - split; [apply atualizar_gerador_le|]. split; [by apply atualizar_gerador_max|].
      intros n ->. unfold IDB.atualizar_gerador.
      cbv zeta. destruct (Z.leb_spec (keygen st) (Z.min n (2 ^ 53))); aritmetica.
    - split; [lia|]. split; [aritmetica|]. intros n [= <-]. aritmetica. }
  split.
  - intros k1 r1. rewrite Hrec, lookup_insert_Some.
    intros [[<- <-]|[_ ?]]; eauto.
  - intros n r1. rewrite Hrec, lookup_insert_Some.
    intros [[Hk <-]|[_ Hl]]; [by apply Hg3|]. apply Hgen in Hl. aritmetica.
  - done.
  - intros k1 k2 r1 r2 u. rewrite Hrec, !lookup_insert_Some.
    intros [[<- <-]|[Hk1 Hl1]] [[<- <-]|[Hk2 Hl2]] Hu1 Hu2; eauto.
    + exfalso. apply not_true_iff_false in Hc. apply Hc, colide_true.
      exists k2, r2, u. by rewrite lookup_delete_ne.
    + exfalso. apply not_true_iff_false in Hc. apply Hc, colide_true.
      exists k1, r1, u. by rewrite lookup_delete_ne.
Qed.

(** The generator stays where it is when a stored key is written again. *)
Lemma atualizar_gerador_armazenada (st : ObjectStore) k r :
  store_ok unico st → records st !! k = Some r → IDB.atualizar_gerador (keygen st) k = keygen st.
Proof.
  intros [Hid Hgen Hmax Hun] Hk. destruct k as [n| |]; [|done..].
  unfold IDB.atualizar_gerador.
  apply Hgen in Hk. cbv zeta. destruct (Z.leb_spec (keygen st) (Z.min n (2 ^ 53))); aritmetica.
Qed.


(** The next generated key is free. *)
Lemma keygen_livre (st : ObjectStore) :
  store_ok unico st → keygen st ≤ 2 ^ 53 → records st !! KNum (keygen st) = None.
Proof.
  intros [Hid Hgen Hmax Hun] Hle.
  destruct (records st !! KNum (keygen st)) eqn:E; [|done]. apply Hgen in E. aritmetica.
Qed.


End store_props.

(** ** Sequences of [put] *)

Section put_all_props.
Variable unico : option (list N).
Hypothesis unico_id : unico ≠ Some (js "id").

Lemma elem_of_getAll (st : ObjectStore) (r : objeto) :
  r ∈ IDB.getAll st ↔ ∃ k, records st !! k = Some r.
Proof.
  unfold IDB.getAll. rewrite list_elem_of_fmap. split.
  - intros [[k r'] [-> Hin]]. rewrite merge_sort_Permutation in Hin.
    apply elem_of_map_to_list in Hin. eauto.
  - intros [k Hk]. exists (k, r). split; [done|].
    rewrite merge_sort_Permutation. by apply elem_of_map_to_list.
Qed.

Lemma length_getAll (st : ObjectStore) :
  length (IDB.getAll st) = size (records st).
Proof.
  unfold IDB.getAll. rewrite length_fmap, merge_sort_Permutation.
  apply length_map_to_list.
Qed.

(** Records that all belong to a map [M] with a consistent unique index
    can be put one after another into any part of [M]: each request
    succeeds and the store stays inside [M]. *)
Lemma put_all_into (M : gmap chave objeto) (items : list objeto)
    (m : gmap chave objeto) (g : Z) :
  (∀ k1 k2 r1 r2 u, M !! k1 = Some r1 → M !! k2 = Some r2 →
                    indice unico r1 = Some u → indice unico r2 = Some u → k1 = k2) →
  m ⊆ M →
  Forall (fun r => ∃ k, extrair_chave r = ComChave k ∧ M !! k = Some r) items →
  ∃ m' g',
    IDB.put_all unico (mkStore m g) items = inr (mkStore m' g')
    ∧ m ⊆ m' ∧ m' ⊆ M
    ∧ Forall (fun r => ∃ k, extrair_chave r = ComChave k ∧ m' !! k = Some r) items
    ∧ ((∀ k r, M !! k = Some r → IDB.atualizar_gerador g k = g) → g' = g).
Proof.
  intros Hun. revert m g. induction items as [|r items IH]; intros m g Hsub Hall.
  - exists m, g. simpl. repeat split; auto.
  - apply Forall_cons in Hall as [(k & Hid & HM) Hall].
    cbn [IDB.put_all]. unfold IDB.put, IDB.store_record. rewrite Hid. cbn [andb].
    rewrite colide_false.
    2:{ intros k' r' u. rewrite lookup_delete_Some. intros [Hne Hk'] Hu Hu'.
        apply Hne. symmetry. apply (Hun k' k r' r u); auto.
        by eapply lookup_weaken. }
    cbn [records keygen]. set (g1 := IDB.atualizar_gerador g k).
    assert (<[k := r]> m ⊆ M) as Hsub1.
    { by apply insert_subseteq_l. }
    destruct (IH (<[k := r]> m) g1 Hsub1 Hall) as (m' & g' & Hput & Hs1 & Hs2 & Hall' & Hg).
    exists m', g'. rewrite Hput. split; [done|]. split.
    { apply map_subseteq_spec. intros i x Hi.
      destruct (decide (i = k)) as [->|Hne].
      - assert (M !! k = Some x) by (by eapply lookup_weaken). simplify_eq.
        eapply lookup_weaken; [|exact Hs1]. apply lookup_insert_eq.
      - eapply lookup_weaken; [|exact Hs1]. by rewrite lookup_insert_ne. }
    split; [done|]. split.
    { constructor; [|done]. exists k. split; [done|].
      eapply lookup_weaken; [|exact Hs1]. apply lookup_insert_eq. }
    intros Hfix. assert (g1 = g) as Hg1 by (subst g1; eauto).
    rewrite Hg; [done|]. intros k0 r0 Hk0. rewrite Hg1. eauto.
Qed.

(** Re-inserting what [getAll] returned rebuilds the store, whatever the
    key generator stands at; the generator does not move when it is the
    one of the store. *)
Lemma put_all_getAll (st : ObjectStore) (g : Z) :
  store_ok unico st →
  ∃ g', IDB.put_all unico (mkStore ∅ g) (IDB.getAll st) = inr (mkStore (records st) g')
        ∧ (g = keygen st → g' = g).
Proof.
  intros Hok. pose proof Hok as [Hid Hgen Hmax Hun].
  destruct (put_all_into (records st) (IDB.getAll st) ∅ g)
    as (m' & g' & Hput & _ & Hs & Hall & Hg).
  - exact Hun.
  - apply map_empty_subseteq.
  - apply Forall_forall. intros r [k Hk]%elem_of_getAll. eauto.
  - assert (m' = records st) as ->.
    { apply (anti_symm (⊆)); [done|]. apply map_subseteq_spec. intros k r Hk.
      rewrite Forall_forall in Hall.
      destruct (Hall r) as (k' & Hid' & Hk'); [apply elem_of_getAll; eauto|].
      apply Hid in Hk as Hidk. assert (k' = k) as -> by congruence. done. }
    exists g'. split; [done|]. intros ->. apply Hg. intros k r Hk.
    by eapply atualizar_gerador_armazenada.
Qed.

Lemma put_all_ok (st st' : ObjectStore) (items : list objeto) :
  store_ok unico st → IDB.put_all unico st items = inr st' → store_ok unico st'.
Proof.
  revert st. induction items as [|r items IH]; intros st Hok; simpl.
  - by intros [= <-].
  - destruct (IDB.put unico st r) as [e|e|[k st1]] eqn:Hput; [done|done|].
    apply IH. by eapply store_record_ok.
Qed.

(** A stored record is the record that was put, with the generated key
    written into it when it had none. *)
Lemma store_record_campos campos no_overwrite (st st' : ObjectStore) r k :
  campos_ok campos st → tem_campos campos r →
  IDB.store_record unico no_overwrite st r = Sucesso (k, st') → campos_ok campos st'.
Proof.
  intros Hst Hr Hs.
  apply (store_record_sucesso unico unico_id) in Hs as (r' & Hrec & _ & _ & Hcase & _).
  intros k0 r0. rewrite Hrec, lookup_insert_Some.
  intros [[_ <-]|[_ Hl]]; [|by eauto].
  destruct Hcase as [(_ & -> & _)|(_ & _ & -> & _)]; [done|].
  by apply tem_campos_atribuir.
Qed.

Lemma put_all_campos campos (st st' : ObjectStore) (items : list objeto) :
  campos_ok campos st → Forall (tem_campos campos) items →
  IDB.put_all unico st items = inr st' → campos_ok campos st'.
Proof.
  revert st. induction items as [|r items IH]; intros st Hok Hall; simpl.
  - by intros [= <-].
  - apply Forall_cons in Hall as [Hr Hall].
    destruct (IDB.put unico st r) as [e|e|[k st1]] eqn:Hput; [done|done|].
    apply IH; [|done]. by eapply store_record_campos.
Qed.

(** A sequence of [put] fails exactly when one of its requests fails after
    all the earlier ones went through; the error is that of this request. *)
Lemma put_all_inl (st : ObjectStore) (items : list objeto) (e : Erro) :
  IDB.put_all unico st items = inl e
  ↔ ∃ antes r depois st',
      items = antes ++ r :: depois
      ∧ IDB.put_all unico st antes = inr st'
      ∧ (IDB.put unico st' r = Falha e ∨ IDB.put unico st' r = Excecao e).
Proof.
  revert st. induction items as [|r items IH]; intros st.
  - split; [done|]. intros (antes & r & depois & st' & Heq & _). by destruct antes.
  - cbn [IDB.put_all]. destruct (IDB.put unico st r) as [e'|e'|[k st1]] eqn:Hput.
    + split.
      * intros [= ->]. exists [], r, items, st. auto.
      * intros ([|r0 antes] & r' & depois & st' & Heq & Hantes & Hr').
        -- simpl in *. simplify_eq. destruct Hr'; congruence.
        -- simpl in *. simplify_eq. by rewrite Hput in Hantes.
    + split.
      * intros [= ->]. exists [], r, items, st. auto.
      * intros ([|r0 antes] & r' & depois & st' & Heq & Hantes & Hr').
        -- simpl in *. simplify_eq. destruct Hr'; congruence.
        -- simpl in *. simplify_eq. by rewrite Hput in Hantes.
    + rewrite IH. split.
      * intros (antes & r' & depois & st' & -> & Hantes & Hr').
        exists (r :: antes), r', depois, st'. simpl. by rewrite Hput.
      * intros ([|r0 antes] & r' & depois & st' & Heq & Hantes & Hr').
        -- simpl in *. simplify_eq. destruct Hr'; congruence.
        -- simpl in *. simplify_eq. rewrite Hput in Hantes. eauto 8.
Qed.

Lemma clear_ok (st : ObjectStore) :
  keygen st ≤ 2 ^ 53 + 1 → store_ok unico (IDB.clear st).
Proof. intros Hmax. split; simpl; intros *; by rewrite ?lookup_empty. Qed.

Lemma delete_ok (st : ObjectStore) k : store_ok unico st → store_ok unico (IDB.delete st k).
Proof.
  intros [Hid Hgen Hmax Hun]. split; simpl.
  - intros k' r [_ ?]%lookup_delete_Some. eauto.
  - intros k' r [_ ?]%lookup_delete_Some. eauto.
  - done.
  - intros k1 k2 r1 r2 u [_ ?]%lookup_delete_Some [_ ?]%lookup_delete_Some. eauto.
Qed.

Lemma empty_ok : store_ok unico IDB.empty.
Proof. split; simpl; intros *; rewrite ?lookup_empty; try done. Qed.

End put_all_props.

Lemma unico_livros_id : unico tb_livros ≠ Some (js "id").
Proof. vm_compute. discriminate. Qed.

Lemma unico_alunos_id : unico tb_alunos ≠ Some (js "id").
Proof. vm_compute. discriminate. Qed.

Lemma unico_emprestimos_id : unico tb_emprestimos ≠ Some (js "id").
Proof. discriminate. Qed.

(** ** What [validarEstrutura] and [validarBackup] accept *)

Section aceitacao.

Lemma tem_campo_prop c (o : objeto) : tem_campo c (JObj o) = true ↔ is_Some (prop c o).
Proof.
  unfold tem_campo, prop. destruct (campo c (JObj o)); split; try done; eauto;
    by intros [? ?].
Qed.

Lemma find_None_iff {A} (f : A → bool) (l : list A) :
  List.find f l = None ↔ ∀ x, x ∈ l → f x = false.
Proof.
  induction l as [|a l IH]; cbn.
  - split; [|done]. intros _ x Hx. inversion Hx.
  - destruct (f a) eqn:Ha.
    + split; [done|]. intros Hall. rewrite Hall in Ha by (by left). done.
    + rewrite IH. split.
      * intros Hall x [->|Hx]%elem_of_cons; auto.
      * intros Hall x Hx. apply Hall. by right.
Qed.

Lemma campos_presentes campos (o : objeto) :
  List.find (fun c => negb (tem_campo c (JObj o))) campos = None ↔ tem_campos campos o.
Proof.
  rewrite find_None_iff. unfold tem_campos. split; intros Hall c Hc.
  - apply tem_campo_prop. specialize (Hall c Hc). by apply negb_false_iff in Hall.
  - apply negb_false_iff, tem_campo_prop. by apply Hall.
Qed.

Lemma validarEstrutura_Ok array campos :
  campos ≠ [] →
  validarEstrutura array campos = Ok ↔ Forall (objeto_com_campos campos) array.
Proof.
  intros Hne. induction array as [|item rest IH]; cbn [validarEstrutura].
  - split; [constructor|done].
  - rewrite Forall_cons, <- IH. clear IH. unfold objeto_com_campos.
    destruct item as [| | | |items|fields];
      try (split; [done|by intros [(? & ? & _) _]]).
    + destruct campos as [|c campos]; [done|]. cbn.
      split; [done|by intros [(? & ? & _) _]].
    + destruct (List.find _ campos) as [c|] eqn:Hfind.
      * split; [done|]. intros [(fs & [= <-] & Hall) _].
        apply campos_presentes in Hall. congruence.
      * split; [|by intros [_ ?]]. intros Hrest. split; [|done].
        exists fields. split; [done|]. by apply campos_presentes.
Qed.

Lemma validarEstrutura_campo_ausente array campos c :
  validarEstrutura array campos = Throw (CampoAusente c) →
  c ∈ campos ∧ ∃ item, item ∈ array ∧ tem_campo c item = false.
Proof.
  induction array as [|item rest IH]; cbn [validarEstrutura]; [done|].
  assert (∀ r, match List.find (fun c => negb (tem_campo c item)) campos with
               | Some c => Throw (CampoAusente c)
               | None => validarEstrutura rest campos
               end = r → r = Throw (CampoAusente c) →
               c ∈ campos ∧ ∃ it, it ∈ item :: rest ∧ tem_campo c it = false) as Haux.
  { intros r <-. destruct (List.find _ campos) as [c'|] eqn:Hfind.
    - intros [= ->]. apply find_some in Hfind as [Hin Hc].
      apply negb_true_iff in Hc. split; [by apply list_elem_of_In|].
      exists item. split; [by left|done].
    - intros Hrest. destruct (IH Hrest) as (Hc & it & Hit & Hf).
      split; [done|]. exists it. split; [by right|done]. }
  destruct item; try done; intros Hr; by eapply Haux.
Qed.

Lemma validarBackup_Ok j :
  validarBackup j = Ok ↔
  ∃ ls als es,
    campo (js "livros") j = Some (JArr ls)
    ∧ campo (js "alunos") j = Some (JArr als)
    ∧ campo (js "emprestimos") j = Some (JArr es)
    ∧ truthy (campo (js "versao") j) = true
    ∧ truthy (campo (js "dataExportacao") j) = true
    ∧ campo (js "totalRegistros") j
      = Some (JNum (Z.of_nat (length ls + length als + length es)))
    ∧ campo (js "checksum") j
      = Some (JStr (gerarChecksumSimples (remover_campo (js "checksum") j)))
    ∧ Forall (objeto_com_campos campos_livro) ls
    ∧ Forall (objeto_com_campos campos_aluno) als
    ∧ Forall (objeto_com_campos campos_emprestimo) es.
Proof.
  unfold validarBackup. split.
  - destruct j; try done. cbv match.
    destruct (truthy (campo (js "versao") _)) eqn:Hv; [|done].
    destruct (truthy (campo (js "dataExportacao") _)) eqn:Hd; [|done].
    destruct (campo (js "totalRegistros") _) as [t|] eqn:Ht; [|done].
    destruct (truthy (campo (js "checksum") _)) eqn:Hc; [|done].
    destruct (campo (js "livros") _) as [[| | | |ls|]|] eqn:Hls; try done.
    destruct (campo (js "alunos") _) as [[| | | |als|]|] eqn:Hals; try done.
    destruct (campo (js "emprestimos") _) as [[| | | |es|]|] eqn:Hes; try done.
    cbn [negb orb isArray itens igual_numero].
    destruct t as [| |n| | |]; try done.
    destruct (n =? _) eqn:Hn; [|done]. apply Z.eqb_eq in Hn. subst n.
    cbn [negb]. cbv zeta.
    destruct (campo (js "checksum") _) as [[| | |c| |]|] eqn:Hck; try done.
    cbn [igual_string]. case_bool_decide as Hsum; [|done]. subst c. cbn [negb].
    destruct (validarEstrutura ls _) eqn:H1; [|done].
    destruct (validarEstrutura als _) eqn:H2; [|done].
    cbn [seq_resultado]. intros H3.
    exists ls, als, es. repeat split; try done;
      by apply validarEstrutura_Ok.
  - intros (ls & als & es & Hls & Hals & Hes & Hv & Hd & Ht & Hc & H1 & H2 & H3).
    destruct j; try done. cbv match.
    rewrite Hv, Hd, Ht, Hls, Hals, Hes, Hc.
    cbn [negb orb isArray itens igual_numero igual_string truthy].
    rewrite gerarChecksumSimples_peso.
    destruct (toString16 _) eqn:Hhex; [by apply toString16_not_empty in Hhex|].
    rewrite Z.eqb_refl, bool_decide_eq_true_2 by done.
    cbn [negb orb]. cbv zeta.
    apply validarEstrutura_Ok in H1, H2, H3; try done.
    by rewrite H1, H2, H3.
Qed.

(** The records of a validated document. *)
Lemma registros_validados campos (items : list json) :
  Forall (objeto_com_campos campos) items →
  List.map JObj (List.map campos_de items) = items
  ∧ Forall (tem_campos campos) (List.map campos_de items).
Proof.
  induction 1 as [|item items (o & -> & Ho) _ [IH1 IH2]]; [by split|].
  cbn. rewrite IH1. split; [done|]. by constructor.
Qed.



End aceitacao.

(** ** Export and import *)

Section roundtrip.


Lemma campos_do_arquivo (v d t ls als es c : json) :
  let corpo :=
    [(js "versao", v); (js "dataExportacao", d); (js "totalRegistros", t);
     (js "livros", ls); (js "alunos", als); (js "emprestimos", es)] in
  let j := JObj (corpo ++ [(js "checksum", c)]) in
  campo (js "versao") j = Some v
  ∧ campo (js "dataExportacao") j = Some d
  ∧ campo (js "totalRegistros") j = Some t
  ∧ campo (js "livros") j = Some ls
  ∧ campo (js "alunos") j = Some als
  ∧ campo (js "emprestimos") j = Some es
  ∧ campo (js "checksum") j = Some c
  ∧ remover_campo (js "checksum") j = JObj corpo.
Proof. repeat split; vm_compute; reflexivity. Qed.

Lemma map_fmap {A B : Type} (f : A → B) (l : list A) : List.map f l = f <$> l.
Proof. induction l as [|x l IH]; [done|]. cbn. by rewrite IH. Qed.



Lemma getAll_chaves_validas unico (st : ObjectStore) :
  store_ok unico st →
  Forall (fun r => extrair_chave r ≠ ChaveInvalida) (IDB.getAll st).
Proof.
  intros Hok. apply Forall_forall. intros r [k Hk]%elem_of_getAll.
  by rewrite (ok_id _ _ Hok k r Hk).
Qed.

Lemma put_lanca_false (data : Dados) :
  Forall (fun r => extrair_chave r ≠ ChaveInvalida)
         (d_livros data ++ d_alunos data ++ d_emprestimos data) →
  DB.put_lanca data = false.
Proof.
  intros Hall. unfold DB.put_lanca. apply not_true_is_false.
  rewrite existsb_exists. intros (r & Hin%list_elem_of_In & Hr).
  apply bool_decide_eq_true in Hr. rewrite Forall_forall in Hall. by apply (Hall r).
Qed.

Lemma put_lanca_true (data : Dados) :
  DB.put_lanca data = true
  ↔ ∃ r, r ∈ d_livros data ++ d_alunos data ++ d_emprestimos data
         ∧ extrair_chave r = ChaveInvalida.
Proof.
  unfold DB.put_lanca. rewrite existsb_exists. split.
  - intros (r & Hin%list_elem_of_In & Hr%bool_decide_eq_true). eauto.
  - intros (r & Hin & Hr). exists r. split; [by apply list_elem_of_In|].
    by apply bool_decide_eq_true.
Qed.

Lemma put_lanca_exportAllData db :
  db_ok db → DB.put_lanca (DB.exportAllData db) = false.
Proof.
  intros [(Hl & Ha & He) _]. apply put_lanca_false. cbn.
  rewrite !Forall_app. repeat split; by eapply getAll_chaves_validas.
Qed.


(** Importing what was exported rebuilds the three stores; over the same
    database it changes nothing at all. *)
Lemma importAllData_exportAllData (db0 db : Database) :
  db_ok db →
  ∃ db', DB.importAllData db0 (DB.exportAllData db) = (Resolved tt, db')
         ∧ records (livros db') = records (livros db)
         ∧ records (alunos db') = records (alunos db)
         ∧ records (emprestimos db') = records (emprestimos db)
         ∧ (db0 = db → db' = db).
Proof.
  intros Hok. pose proof Hok as [(Hl & Ha & He) _].
  unfold DB.importAllData, DB.importAllData_tx, IDB.clear.
  rewrite put_lanca_exportAllData by done.
  cbn [DB.exportAllData d_livros d_alunos d_emprestimos].
  destruct (put_all_getAll _ (livros db) (keygen (livros db0)) Hl) as (g1 & -> & Hg1).
  destruct (put_all_getAll _ (alunos db) (keygen (alunos db0)) Ha) as (g2 & -> & Hg2).
  destruct (put_all_getAll _ (emprestimos db) (keygen (emprestimos db0)) He)
    as (g3 & -> & Hg3).
  eexists. split; [reflexivity|]. cbn. repeat split; [].
  intros ->. rewrite Hg1, Hg2, Hg3 by done.
  by destruct db as [[] [] []].
Qed.

End roundtrip.

(** ** Every operation keeps the stores well formed *)

Section db_ok_props.

Ltac tres_stores :=
  split; [|split];
  cbn [livros alunos emprestimos gravar ler tb_livros tb_alunos tb_emprestimos].

Lemma initDB_ok : db_ok initDB.
Proof.
  split; [tres_stores; apply empty_ok|].
  tres_stores; intros k r; simpl; by rewrite lookup_empty.
Qed.

(** A stored record has its [id], whether it came with one or got a
    generated one. *)
Lemma store_record_campos_id unico campos no_overwrite (st st' : ObjectStore) r k :
  unico ≠ Some (js "id") →
  campos_ok (js "id" :: campos) st → tem_campos campos r →
  IDB.store_record unico no_overwrite st r = Sucesso (k, st') →
  campos_ok (js "id" :: campos) st'.
Proof.
  intros Hunico Hst Hr Hs.
  apply (store_record_sucesso unico Hunico) in Hs as (r' & Hrec & _ & _ & Hcase & _).
  intros k0 r0. rewrite Hrec, lookup_insert_Some.
  intros [[_ <-]|[_ Hl]]; [|by eauto].
  destruct Hcase as [(Hid & -> & _)|(_ & _ & -> & _)].
  - intros c [->|Hc]%elem_of_cons; [|by apply Hr].
    unfold extrair_chave in Hid. destruct (prop (js "id") r); [eauto|done].
  - by apply tem_campos_atribuir_novo.
Qed.

Lemma tem_campos_cons c campos (o : objeto) :
  tem_campos (c :: campos) o → tem_campos campos o.
Proof. intros Ho c' Hc'. apply Ho. by right. Qed.

Lemma save_livros_ok db item :
  db_ok db → tem_campos (tail campos_livro) item → db_ok (DB.save tb_livros db item).2.
Proof.
  intros ((Hl & Ha & He) & Cl & Ca & Ce) Hitem. unfold DB.save.
  destruct (IDB.put _ _ item) as [e|e|[k st]] eqn:Hput; simpl; [done|done|].
  split; tres_stores; try done.
  - eapply store_record_ok; [apply unico_livros_id|exact Hl|exact Hput].
  - eapply (store_record_campos_id _ (tail campos_livro));
      [apply unico_livros_id|exact Cl|exact Hitem|exact Hput].
Qed.

Lemma save_alunos_ok db item :
  db_ok db → tem_campos (tail campos_aluno) item → db_ok (DB.save tb_alunos db item).2.
Proof.
  intros ((Hl & Ha & He) & Cl & Ca & Ce) Hitem. unfold DB.save.
  destruct (IDB.put _ _ item) as [e|e|[k st]] eqn:Hput; simpl; [done|done|].
  split; tres_stores; try done.
  - eapply store_record_ok; [apply unico_alunos_id|exact Ha|exact Hput].
  - eapply (store_record_campos_id _ (tail campos_aluno));
      [apply unico_alunos_id|exact Ca|exact Hitem|exact Hput].
Qed.

Lemma registrarEmprestimo_ok db emprestimo p db' :
  db_ok db → tem_campos (tail campos_emprestimo) emprestimo →
  DB.registrarEmprestimo db emprestimo = Some (p, db') → db_ok db'.
Proof.
  intros Hok Hitem. pose proof Hok as ((Hl & Ha & He) & Cl & Ca & Ce).
  unfold DB.registrarEmprestimo.
  destruct (_ ≫= chave_de) as [idLivro|]; [|by intros [= _ <-]].
  destruct (IDB.get _ _) as [livro|] eqn:Hlivro; [|by intros [= _ <-]].
  destruct (js_menor_igual _ _) as [[]|]; cbn [mbind option_bind]; [by intros [= _ <-]| |done].
  destruct (js_menos _ _) as [q|]; cbn [mbind option_bind]; [|done].
  destruct (IDB.put _ _ _) as [e|e|[k st]] eqn:Hput; [by intros [= _ <-]| |].
  - destruct (IDB.add _ _ _) as [e'|e'|[k' st']]; by intros [= _ <-].
  - destruct (IDB.add _ _ _) as [e'|e'|[k' st']] eqn:Hadd; try (by intros [= _ <-]).
    intros [= _ <-]. split; tres_stores; try done.
    + eapply store_record_ok; [apply unico_livros_id|exact Hl|exact Hput].
    + eapply store_record_ok; [apply unico_emprestimos_id|exact He|exact Hadd].
    + eapply (store_record_campos_id _ (tail campos_livro));
        [apply unico_livros_id|exact Cl| |exact Hput].
      apply tem_campos_atribuir. eapply tem_campos_cons. by eapply Cl.
    + eapply (store_record_campos_id _ (tail campos_emprestimo));
        [apply unico_emprestimos_id|exact Ce|exact Hitem|exact Hadd].
Qed.

Lemma registrarDevolucao_ok db id data p db' :
  db_ok db → DB.registrarDevolucao db id data = Some (p, db') → db_ok db'.
Proof.
  intros Hok. pose proof Hok as ((Hl & Ha & He) & Cl & Ca & Ce).
  unfold DB.registrarDevolucao.
  destruct (IDB.get (emprestimos db) id) as [emprestimo|] eqn:Hemp; [|by intros [= _ <-]].
  destruct (igual_string _ _); [by intros [= _ <-]|].
  destruct (IDB.put _ (emprestimos db) _) as [e|e|[k st]] eqn:Hput; [by intros [= _ <-]| |].
  { destruct (_ ≫= chave_de); by intros [= _ <-]. }
  destruct (_ ≫= chave_de) as [idLivro|]; [|by intros [= _ <-]].
  assert (store_ok (unico tb_emprestimos) st ∧ campos_ok campos_emprestimo st) as [He' Ce'].
  { split.
    - eapply store_record_ok; [apply unico_emprestimos_id|exact He|exact Hput].
    - eapply (store_record_campos_id _ (tail campos_emprestimo));
        [apply unico_emprestimos_id|exact Ce| |exact Hput].
      do 2 apply tem_campos_atribuir. eapply tem_campos_cons. by eapply Ce. }
  destruct (IDB.get (livros db) _) as [livro|] eqn:Hlivro.
  - destruct (js_mais _ _) as [q|]; cbn [mbind option_bind]; [|done].
    destruct (IDB.put _ (livros db) _) as [e|e|[k' st']] eqn:Hput'; try (by intros [= _ <-]).
    intros [= _ <-]. split; tres_stores; try done.
    + eapply store_record_ok; [apply unico_livros_id|exact Hl|exact Hput'].
    + eapply (store_record_campos_id _ (tail campos_livro));
        [apply unico_livros_id|exact Cl| |exact Hput'].
      apply tem_campos_atribuir. eapply tem_campos_cons. by eapply Cl.
  - intros [= _ <-]. split; tres_stores; done.
Qed.

Lemma importAllData_ok db data :
  db_ok db →
  Forall (tem_campos campos_livro) (d_livros data) →
  Forall (tem_campos campos_aluno) (d_alunos data) →
  Forall (tem_campos campos_emprestimo) (d_emprestimos data) →
  db_ok (DB.importAllData db data).2.
Proof.
  intros Hok Fl Fa Fe. pose proof Hok as ((Hl & Ha & He) & Cl & Ca & Ce).
  unfold DB.importAllData, DB.importAllData_tx.
  destruct (DB.put_lanca data); [done|].
  destruct (IDB.put_all _ _ (d_livros data)) as [e|ls] eqn:H1; [done|].
  destruct (IDB.put_all _ _ (d_alunos data)) as [e|als] eqn:H2; [done|].
  destruct (IDB.put_all _ _ (d_emprestimos data)) as [e|es] eqn:H3; [done|].
  simpl. split; tres_stores.
  - eapply put_all_ok; [apply unico_livros_id|apply clear_ok, Hl|exact H1].
  - eapply put_all_ok; [apply unico_alunos_id|apply clear_ok, Ha|exact H2].
  - eapply put_all_ok; [apply unico_emprestimos_id|apply clear_ok, He|exact H3].
  - eapply put_all_campos; [apply unico_livros_id| |exact Fl|exact H1].
    intros k r. simpl. by rewrite lookup_empty.
  - eapply put_all_campos; [apply unico_alunos_id| |exact Fa|exact H2].
    intros k r. simpl. by rewrite lookup_empty.
  - eapply put_all_campos; [apply unico_emprestimos_id| |exact Fe|exact H3].
    intros k r. simpl. by rewrite lookup_empty.
Qed.

(** A failed import leaves the database as it was. *)
Lemma importAllData_rejected db data e db' :
  DB.importAllData db data = (Rejected e, db') → db' = db.
Proof.
  unfold DB.importAllData. destruct (DB.importAllData_tx db data); by intros [= _ <-].
Qed.

Lemma importAllData_nao_pendente db data db' :
  DB.importAllData db data ≠ (Pending, db').
Proof. unfold DB.importAllData. by destruct (DB.importAllData_tx db data). Qed.

Lemma dados_validados j :
  validarBackup j = Ok →
  Forall (tem_campos campos_livro) (d_livros (Script.dados_de_json j))
  ∧ Forall (tem_campos campos_aluno) (d_alunos (Script.dados_de_json j))
  ∧ Forall (tem_campos campos_emprestimo) (d_emprestimos (Script.dados_de_json j)).
Proof.
  intros (ls & als & es & Hls & Hals & Hes & _ & _ & _ & _ & H1 & H2 & H3)%validarBackup_Ok.
  unfold Script.dados_de_json. rewrite Hls, Hals, Hes. cbn [itens d_livros d_alunos d_emprestimos].
  repeat split; by apply registros_validados.
Qed.

Lemma handleImportarDados_ok db j confirmado :
  db_ok db → db_ok (Script.handleImportarDados db j confirmado).2.
Proof.
  intros Hok. unfold Script.handleImportarDados.
  destruct (validarBackup j) eqn:Hval; [|done].
  destruct (negb confirmado); [done|].
  destruct (dados_validados j Hval) as (Fl & Fa & Fe).
  pose proof (importAllData_ok db (Script.dados_de_json j) Hok Fl Fa Fe) as H1.
  destruct (DB.importAllData db _) as [[?|e|] db1] eqn:Himp; simpl in H1; [done| |done].
  apply importAllData_rejected in Himp as ->.
  destruct (importAllData_exportAllData db db Hok) as (db2 & -> & _ & _ & _ & Heq).
  by rewrite Heq.
Qed.

Lemma handleSalvarLivro_ok db f a db' :
  db_ok db → Script.handleSalvarLivro db f = Some (a, db') → db_ok db'.
Proof.
  intros Hok. unfold Script.handleSalvarLivro.
  assert (∀ livro, tem_campos (tail campos_livro) livro →
            ∀ a db',
              (let (p, db1) := DB.save tb_livros db livro in
               match p with
               | Resolved _ =>
                   (match Script.livro_id f with
                    | Some _ => Script.LivroAtualizado
                    | None => Script.LivroCadastrado
                    end, db1)
               | Rejected _ => (Script.ErroSalvarLivro, db1)
               | Pending => (Script.Nenhum, db1)
               end) = (a, db') → db_ok db') as Hsalvar.
  { intros livro Hlivro a0 db0. pose proof (save_livros_ok db livro Hok Hlivro) as Hs.
    destruct (DB.save tb_livros db livro) as [[?|?|] db1]; by intros [= _ <-]. }
  assert (∀ x1 x2 x3 x4 x5 : json,
            tem_campos (tail campos_livro)
              [(js "titulo", x1); (js "autor", x2); (js "isbn", x3);
               (js "quantidadeTotal", x4); (js "quantidadeDisponivel", x5)]) as Hnovo.
  { intros x1 x2 x3 x4 x5 c Hc. cbn in Hc.
    repeat (apply elem_of_cons in Hc as [->|Hc]; [vm_compute; eauto|]).
    by apply elem_of_nil in Hc. }
  destruct (Script.livro_id f) as [id|].
  - destruct (DB.getById _ _ _) as [antigo|].
    + destruct (js_menos _ _) as [d|]; cbn [mbind option_bind]; [|done].
      destruct (js_mais _ _) as [q|]; cbn [mbind option_bind]; [|done].
      destruct (js_menor _ _) as [[]|]; cbn [mbind option_bind]; [by intros [= _ <-]| |done].
      intros [= Heq]. eapply Hsalvar; [|exact Heq].
      do 2 apply tem_campos_atribuir. apply Hnovo.
    + intros [= Heq]. eapply Hsalvar; [|exact Heq].
      apply tem_campos_atribuir. apply Hnovo.
  - intros [= Heq]. eapply Hsalvar; [|exact Heq]. apply Hnovo.
Qed.

Lemma handleSalvarAluno_ok db f : db_ok db → db_ok (Script.handleSalvarAluno db f).2.
Proof.
  intros Hok. unfold Script.handleSalvarAluno.
  assert (∀ x1 x2 x3 : json,
            tem_campos (tail campos_aluno)
              [(js "nome", x1); (js "matricula", x2); (js "turma", x3)]) as Hnovo.
  { intros x1 x2 x3 c Hc. cbn in Hc.
    repeat (apply elem_of_cons in Hc as [->|Hc]; [vm_compute; eauto|]).
    by apply elem_of_nil in Hc. }
  match goal with
  | |- context [DB.save _ _ ?i] =>
      assert (tem_campos (tail campos_aluno) i) as Hi;
      [|pose proof (save_alunos_ok db i Hok Hi)]
  end.
  { destruct (Script.aluno_id f); [apply tem_campos_atribuir|]; apply Hnovo. }
  destruct (DB.save _ _ _) as [[?|?|] ?]; by destruct (Script.aluno_id f).
Qed.

Lemma novo_emprestimo_campos idLivro idAluno d1 d2 :
  tem_campos (tail campos_emprestimo) (Script.novo_emprestimo idLivro idAluno d1 d2).
Proof.
  intros c Hc. cbn in Hc.
  repeat (apply elem_of_cons in Hc as [->|Hc]; [vm_compute; eauto|]).
  by apply elem_of_nil in Hc.
Qed.

Lemma delete_db_ok tb db k :
  tb = tb_livros ∨ tb = tb_alunos → db_ok db → db_ok (DB.delete tb db k).
Proof.
  intros Htb ((Hl & Ha & He) & Cl & Ca & Ce).
  destruct Htb as [->| ->]; unfold DB.delete; split; tres_stores; try done.
  - by apply delete_ok.
  - intros k' r Hr. simpl in Hr. apply lookup_delete_Some in Hr as [_ ?]. by eapply Cl.
  - by apply delete_ok.
  - intros k' r Hr. simpl in Hr. apply lookup_delete_Some in Hr as [_ ?]. by eapply Ca.
Qed.

Lemma executar_ok db a db' : db_ok db → executar db a = Some db' → db_ok db'.
Proof.
  intros Hok. destruct a; cbn [executar].
  - destruct (Script.handleSalvarLivro db f) as [[av db1]|] eqn:Hs; [|done].
    intros [= <-]. by eapply handleSalvarLivro_ok.
  - intros [= <-]. apply (delete_db_ok tb_livros); auto.
  - intros [= <-]. by apply handleSalvarAluno_ok.
  - intros [= <-]. apply (delete_db_ok tb_alunos); auto.
  - unfold Script.handleRegistrarEmprestimo.
    destruct (DB.registrarEmprestimo _ _) as [[p db1]|] eqn:Hr; [|done].
    intros [= <-]. eapply registrarEmprestimo_ok; [done| |exact Hr].
    apply novo_emprestimo_campos.
  - unfold Script.registrarDevolucao.
    destruct (DB.registrarDevolucao _ _ _) as [[p db1]|] eqn:Hr; [|done].
    intros [= <-]. by eapply registrarDevolucao_ok.
  - intros [= <-]. by apply handleImportarDados_ok.
Qed.

Lemma alcancavel_db_ok db : alcancavel db → db_ok db.
Proof. induction 1; [apply initDB_ok|by eapply executar_ok]. Qed.

End db_ok_props.

Lemma alcancavel_executar_todos acoes db db' :
  alcancavel db → executar_todos db acoes = Some db' → alcancavel db'.
Proof.
  revert db. induction acoes as [|a acoes IH]; intros db Hdb; simpl.
  - by intros [= <-].
  - destruct (executar db a) as [db1|] eqn:Ha; [|done].
    apply IH. by eapply alc_passo.
Qed.

Lemma db_emprestado_alcancavel : alcancavel Exemplo.db_emprestado.
Proof.
  apply (alcancavel_executar_todos Exemplo.acoes_emprestado initDB); [apply alc_inicio|].
  vm_compute. reflexivity.
Qed.



(** C3. When the transaction of [importAllData] fails, because a request
    failed or because a [put] threw, the promise rejects and the database is
    what it was before the call; the restore of the temporary backup that
    [handleImportarDados] then runs succeeds and changes nothing either, so
    the pipeline ends with "Rollback executado" on the unchanged database. *)
Theorem importAllData_failure_keeps_data (db : Database) (data : Dados) (e : Erro) :
  db_ok db →
  DB.importAllData_tx db data = inl e →
  DB.importAllData db data = (Rejected e, db)
  ∧ DB.importAllData db (DB.exportAllData db) = (Resolved tt, db)
  ∧ ∀ j, validarBackup j = Ok → Script.dados_de_json j = data →
         Script.handleImportarDados db j true = (Script.RollbackExecutado, db).
Proof.
  intros Hok Htx.
  assert (DB.importAllData db data = (Rejected e, db)) as H1.
  { unfold DB.importAllData. by rewrite Htx. }
  assert (DB.importAllData db (DB.exportAllData db) = (Resolved tt, db)) as H2.
  { destruct (importAllData_exportAllData db db Hok) as (db' & Himp & _ & _ & _ & Heq).
    by rewrite Himp, Heq. }
  split; [done|]. split; [done|].
  intros j Hval Hdados. unfold Script.handleImportarDados.
  rewrite Hval, Hdados. cbn [negb]. by rewrite H1, H2.
Qed.

Lemma importAllData_failure_keeps_data_witness :
  DB.importAllData Exemplo.db_emprestado Exemplo.dados_isbn_repetido
  = (Rejected ConstraintError, Exemplo.db_emprestado)
  ∧ DB.importAllData Exemplo.db_emprestado (DB.exportAllData Exemplo.db_emprestado)
    = (Resolved tt, Exemplo.db_emprestado)
  ∧ ∀ j, validarBackup j = Ok → Script.dados_de_json j = Exemplo.dados_isbn_repetido →
         Script.handleImportarDados Exemplo.db_emprestado j true
         = (Script.RollbackExecutado, Exemplo.db_emprestado).
Proof.
  apply (importAllData_failure_keeps_data
           Exemplo.db_emprestado Exemplo.dados_isbn_repetido ConstraintError).
  - apply alcancavel_db_ok, db_emprestado_alcancavel.
  - vm_compute. reflexivity.
Defined.

(** ** Checkout and return *)

(** C4. A checkout whose book is missing, or has no copy available (its
    available quantity, as a number, is at most 0), rejects with "Livro
    indisponível para empréstimo." and leaves the whole database as it was:
    no book is changed and no loan is added. *)
Theorem registrarEmprestimo_unavailable (db : Database) (emprestimo : objeto)
    (idLivro : chave) :
  prop (js "idLivro") emprestimo ≫= chave_de = Some idLivro →
  (IDB.get (livros db) idLivro = None
   ∨ ∃ livro n, IDB.get (livros db) idLivro = Some livro
                ∧ to_number (prop (js "quantidadeDisponivel") livro) = Some n
                ∧ n ≤ 0) →
  DB.registrarEmprestimo db emprestimo = Some (Rejected LivroIndisponivel, db).
Proof.
  unfold DB.registrarEmprestimo. intros -> [->|(livro & n & -> & Hn & Hq)]; [done|].
  unfold js_menor_igual. rewrite Hn. cbn [mbind option_bind].
  destruct (Z.leb_spec n 0); [done|lia].
Qed.

Lemma registrarEmprestimo_unavailable_witness :
  DB.registrarEmprestimo Exemplo.db_emprestado
    (Script.novo_emprestimo 1 1 (js "2026-01-04") (js "2026-01-11"))
  = Some (Rejected LivroIndisponivel, Exemplo.db_emprestado).
Proof.
  apply (registrarEmprestimo_unavailable Exemplo.db_emprestado _ (KNum 1)).
  - reflexivity.
  - right. exists (Exemplo.dom_casmurro (JNum 1) (JNum 0)), 0.
    split; [vm_compute; reflexivity|]. split; [reflexivity|lia].
Defined.

Section numeros.





Lemma js_mais_texto s : js_mais (Some (JStr s)) 1 = Some (JStr (s ++ js "1")).
Proof. reflexivity. Qed.


End numeros.

Section transacoes.







End transacoes.







(** ** The quantities of a book *)

Section estoque.











End estoque.




(** The same excess without any backup: the sequence of
    [Exemplo.acoes_formulario_antigo]. *)
Lemma estoque_exceeds_total_stale_form :
  ∃ db, executar_todos initDB Exemplo.acoes_formulario_antigo = Some db
        ∧ records (livros db) !! KNum 1 = Some (Exemplo.dom_casmurro (JNum 1) (JNum 2)).
Proof. eexists. split; vm_compute; reflexivity. Qed.

(** A validated import may also leave quantities that are no numbers. *)
Lemma estoque_not_numbers_after_import :
  ∃ db, Script.handleImportarDados initDB Exemplo.arquivo_quantidades_texto true
        = (Script.RestauracaoConcluida, db)
        ∧ records (livros db) !! KNum 1
          = Some (Exemplo.dom_casmurro (JStr (js "1")) (JStr (js "1")))
        ∧ ¬ estoque_ok db.
Proof.
  eexists. split; [vm_compute; reflexivity|].
  assert (∀ db l, records (livros db) !! KNum 1 = Some l →
                  prop (js "quantidadeDisponivel") l = Some (JStr (js "1")) →
                  ¬ estoque_ok db) as Hno.
  { intros db l Hl Hq Hok. destruct (Hok _ _ Hl) as (d & t & Hd & _). congruence. }
  split; [vm_compute; reflexivity|].
  eapply Hno; vm_compute; reflexivity.
Qed.

(** ** The reads of an export *)

(** C8, counterexample. A checkout commits after the export has read the
    books and before it reads the loans. The exported object shows the book
    with its copy on the shelf and the loan of that copy: it is the content of
    the database neither before nor after the checkout. *)
Lemma exportAllData_mixes_two_states :
  (exportAllData_entre Exemplo.db_disponivel (fun db => db) Exemplo.emprestar).2
  = Exemplo.db_emprestado
  ∧ (exportAllData_entre Exemplo.db_disponivel (fun db => db) Exemplo.emprestar).1
    ≠ DB.exportAllData Exemplo.db_disponivel
  ∧ (exportAllData_entre Exemplo.db_disponivel (fun db => db) Exemplo.emprestar).1
    ≠ DB.exportAllData Exemplo.db_emprestado
  ∧ (exportAllData_entre Exemplo.db_disponivel (fun db => db) Exemplo.emprestar).1
    = mkDados
        [Exemplo.dom_casmurro (JNum 1) (JNum 1)]
        [Exemplo.bento]
        [Exemplo.emprestimo 1 1 1 (js "2026-01-03") (js "2026-01-10")].
Proof.
  split; [vm_compute; reflexivity|]. split; [|split].
  - intros Heq. apply (f_equal d_emprestimos) in Heq. vm_compute in Heq. discriminate.
  - intros Heq. apply (f_equal d_livros) in Heq. vm_compute in Heq. discriminate.
  - vm_compute. reflexivity.
Qed.

(** C8, as the code has it. The three collections are read one after the
    other, each in its own transaction. The exported object is the content of
    the database at the start when what commits in between leaves the stores
    still to be read alone, and the content at the end when it leaves the
    stores already read alone. *)
Theorem exportAllData_entre_consistent (db : Database) (entre1 entre2 : Database → Database) :
  (alunos (entre1 db) = alunos db →
   emprestimos (entre2 (entre1 db)) = emprestimos db →
   (exportAllData_entre db entre1 entre2).1 = DB.exportAllData db)
  ∧ (livros (entre2 (entre1 db)) = livros db →
     alunos (entre2 (entre1 db)) = alunos (entre1 db) →
     (exportAllData_entre db entre1 entre2).1 = DB.exportAllData (entre2 (entre1 db)))
  ∧ (exportAllData_entre db entre1 entre2).2 = entre2 (entre1 db).
Proof.
  unfold exportAllData_entre, DB.exportAllData. cbn [fst snd].
  split; [|split; [|done]].
  - by intros -> ->.
  - by intros -> ->.
Qed.

Lemma exportAllData_entre_consistent_witness :
  (exportAllData_entre Exemplo.db_disponivel Exemplo.cadastrar_outro_livro (fun db => db)).1
  = DB.exportAllData Exemplo.db_disponivel.
Proof.
  apply (exportAllData_entre_consistent
           Exemplo.db_disponivel Exemplo.cadastrar_outro_livro (fun db => db)).
  - vm_compute. reflexivity.
  - vm_compute. reflexivity.
Defined.

(** ** Repeated identifiers in an import *)

Section conjuntos.

Lemma size_list_to_set_le (l : list chave) :
  (size (list_to_set l : gset chave) ≤ length l)%nat.
Proof.
  induction l as [|x l IH]; [done|]. cbn [list_to_set length].
  rewrite size_union_alt, size_singleton.
  assert (size (list_to_set l ∖ {[x]} : gset chave) ≤ size (list_to_set l : gset chave))%nat
    as Hle.
  { apply subseteq_size. intros y Hy. by apply elem_of_difference in Hy as [Hy _]. }
  lia.
Qed.

Lemma size_list_to_set_lt (l : list chave) :
  ¬ NoDup l → (size (list_to_set l : gset chave) < length l)%nat.
Proof.
  induction l as [|x l IH]; intros Hnd.
  - destruct Hnd. constructor.
  - cbn [list_to_set length]. destruct (decide (x ∈ l)) as [Hin|Hnin].
    + assert ({[x]} ∪ list_to_set l = (list_to_set l : gset chave)) as ->.
      { apply set_eq. intros y.
        rewrite elem_of_union, elem_of_singleton, elem_of_list_to_set.
        split; [by intros [->|?]|by right]. }
      pose proof (size_list_to_set_le l). lia.
    + rewrite size_union, size_singleton.
      2:{ intros y Hy1 Hy2. apply elem_of_singleton in Hy1 as ->.
          by apply elem_of_list_to_set in Hy2. }
      assert (¬ NoDup l) as Hl by (intros ?; apply Hnd; by constructor).
      specialize (IH Hl). lia.
Qed.

End conjuntos.

Section duplicados.
Variable unico : option (list N).

Lemma id_de_Some r k : id_de r = Some k ↔ extrair_chave r = ComChave k.
Proof. unfold id_de. destruct (extrair_chave r); split; congruence. Qed.

Lemma todos_com_id_spec (items : list objeto) :
  todos_com_id items = true ↔ ∀ r, r ∈ items → is_Some (id_de r).
Proof.
  unfold todos_com_id, id_de. rewrite forallb_forall. split.
  - intros Hall r Hr%list_elem_of_In. specialize (Hall r Hr).
    by destruct (extrair_chave r); [| |eauto].
  - intros Hall r Hr%list_elem_of_In. destruct (Hall r Hr) as [k Hk].
    by destruct (extrair_chave r).
Qed.

Lemma sem_conflito_de_indice_spec (items : list objeto) :
  sem_conflito_de_indice unico items = true →
  ∀ r1 r2 u, r1 ∈ items → r2 ∈ items →
             indice unico r1 = Some u → indice unico r2 = Some u →
             extrair_chave r1 = extrair_chave r2.
Proof.
  unfold sem_conflito_de_indice. rewrite forallb_forall.
  intros Hall r1 r2 u Hr1%list_elem_of_In Hr2%list_elem_of_In Hu1 Hu2.
  specialize (Hall r1 Hr1). rewrite forallb_forall in Hall.
  specialize (Hall r2 Hr2). rewrite Hu1, Hu2 in Hall.
  rewrite bool_decide_eq_true_2 in Hall by done.
  by apply bool_decide_eq_true in Hall.
Qed.

Lemma ultimo_com_id_cons k r (items : list objeto) :
  ultimo_com_id k (r :: items)
  = match ultimo_com_id k items with
    | Some x => Some x
    | None => if bool_decide (extrair_chave r = ComChave k) then Some r else None
    end.
Proof.
  unfold ultimo_com_id. cbn [List.filter].
  destruct (bool_decide (extrair_chave r = ComChave k)); [|by destruct (last _)].
  apply last_cons.
Qed.

Lemma ultimo_com_id_is_Some k (items : list objeto) :
  is_Some (ultimo_com_id k items) ↔ ∃ r, r ∈ items ∧ id_de r = Some k.
Proof.
  induction items as [|r items IH].
  - split; [by intros [? ?]|]. intros (r & Hr & _). by apply elem_of_nil in Hr.
  - rewrite ultimo_com_id_cons. split.
    + destruct (ultimo_com_id k items) as [x|] eqn:Hx.
      * intros _. destruct (proj1 IH) as (r' & Hr' & Hid); [eauto|].
        exists r'. split; [by right|done].
      * case_bool_decide as Hk; [|by intros [? ?]]. intros _. exists r.
        split; [by left|by apply id_de_Some].
    + intros (r' & [->|Hr']%elem_of_cons & Hid).
      * apply id_de_Some in Hid.
        rewrite bool_decide_eq_true_2 by done. by destruct (ultimo_com_id k items); eauto.
      * destruct (proj2 IH) as [x ->]; eauto.
Qed.

(** A sequence of [put] of records that all carry an identifier and do
    not clash on the unique index succeeds, and leaves under every key the
    last record of the sequence with that identifier. *)
Lemma put_all_ultimo (items : list objeto) (m : gmap chave objeto) (g : Z) :
  (∀ r, r ∈ items → is_Some (id_de r)) →
  (∀ r1 r2 u, r1 ∈ items → r2 ∈ items →
              indice unico r1 = Some u → indice unico r2 = Some u →
              extrair_chave r1 = extrair_chave r2) →
  (∀ r k' r' u, r ∈ items → m !! k' = Some r' →
                indice unico r = Some u → indice unico r' = Some u →
                extrair_chave r = ComChave k') →
  ∃ m' g',
    IDB.put_all unico (mkStore m g) items = inr (mkStore m' g')
    ∧ ∀ k, m' !! k = match ultimo_com_id k items with
                     | Some r => Some r
                     | None => m !! k
                     end.
Proof.
  revert m g. induction items as [|r items IH]; intros m g Hids Hcompat Hm.
  - exists m, g. split; [done|]. intros k. reflexivity.
  - destruct (Hids r) as [k Hk]; [by left|]. apply id_de_Some in Hk.
    cbn [IDB.put_all]. unfold IDB.put, IDB.store_record. rewrite Hk.
    cbn [andb records keygen].
    rewrite colide_false.
    2:{ intros k' r' u [Hne Hk']%lookup_delete_Some Hu Hu'.
        apply Hne. assert (extrair_chave r = ComChave k') as Hid'
          by (eapply Hm; eauto; by left).
        congruence. }
    destruct (IH (<[k := r]> m) (IDB.atualizar_gerador g k)) as (m' & g' & Hput & Hlook).
    + intros r' Hr'. apply Hids. by right.
    + intros r1 r2 u Hr1 Hr2. apply Hcompat; by right.
    + intros r1 k' r' u Hr1 [[<- <-]|[Hne Hk']]%lookup_insert_Some Hu Hu'.
      * rewrite <- Hk. apply (Hcompat r1 r u); [by right|by left|done|done].
      * apply (Hm r1 k' r' u); auto. by right.
    + exists m', g'. split; [done|]. intros k0. rewrite Hlook, ultimo_com_id_cons.
      destruct (ultimo_com_id k0 items); [done|].
      destruct (decide (k = k0)) as [->|Hne].
      * by rewrite lookup_insert_eq, bool_decide_eq_true_2.
      * rewrite lookup_insert_ne by done.
        rewrite bool_decide_eq_false_2; [done|congruence].
Qed.

(** The store that holds the last record of every identifier has at most
    as many records as the sequence, and fewer when an identifier repeats. *)
Lemma size_ultimo (items : list objeto) (m : gmap chave objeto) :
  (∀ r, r ∈ items → is_Some (id_de r)) →
  (∀ k, m !! k = ultimo_com_id k items) →
  (size m ≤ length items)%nat ∧ (id_repetido items → (size m < length items)%nat).
Proof.
  intros Hids Hm.
  assert (dom m = list_to_set (omap id_de items)) as Hdom.
  { apply set_eq. intros k.
    rewrite elem_of_dom, Hm, ultimo_com_id_is_Some, elem_of_list_to_set, list_elem_of_omap.
    done. }
  assert (∀ l : list objeto, (∀ r, r ∈ l → is_Some (id_de r)) →
            ∀ n x k, l !! n = Some x → id_de x = Some k →
                     omap id_de l !! n = Some k) as Hpos.
  { clear. intros l. induction l as [|r l IH]; intros Hl n x k Hn Hx; [done|].
    destruct (Hl r) as [k0 Hk0]; [by left|]. cbn [omap list_omap]. rewrite Hk0.
    destruct n as [|n]; simpl in *.
    - by simplify_eq.
    - eapply IH; eauto. intros r' Hr'. apply Hl. by right. }
  assert (length (omap id_de items) = length items) as Hlen.
  { clear Hm Hdom Hpos. induction items as [|r items IH]; [done|].
    destruct (Hids r) as [k Hk]; [by left|]. cbn [omap list_omap]. rewrite Hk. simpl.
    f_equal. apply IH. intros r' Hr'. apply Hids. by right. }
  rewrite <- size_dom, Hdom, <- Hlen. split; [apply size_list_to_set_le|].
  intros (i & j & a & b & k & Hij & Ha & Hb & Hka & Hkb).
  apply size_list_to_set_lt. intros Hnd.
  apply Hij. eapply (NoDup_lookup _ _ _ k Hnd).
  - eapply Hpos; eauto. by apply id_de_Some.
  - eapply Hpos; eauto. by apply id_de_Some.
Qed.

End duplicados.

(** C10, counterexample. The snapshot has two books with identifier 1; its
    third book, with identifier 2, has the ISBN of the later of the two. The
    third request violates [idx_isbn], and the import rejects. *)
Lemma importAllData_duplicate_id_can_fail :
  id_repetido (d_livros Exemplo.dados_id_repetido_com_conflito)
  ∧ DB.importAllData initDB Exemplo.dados_id_repetido_com_conflito
    = (Rejected ConstraintError, initDB).
Proof.
  split; [|vm_compute; reflexivity].
  exists 0%nat, 1%nat. do 2 eexists. exists (KNum 1).
  split; [done|]. split; [reflexivity|]. split; [reflexivity|].
  split; vm_compute; reflexivity.
Qed.

(** C10, as the code has it. When every record of the snapshot carries an
    identifier and no two records under different identifiers share an ISBN
    or a registration number, the import succeeds, also when an identifier
    occurs twice in a collection; every store then holds, per identifier, the
    record that comes last in the sequence, and the number of stored records
    is at most the number of records in the snapshot, and smaller when an
    identifier is repeated. *)
Theorem importAllData_duplicate_ids (db : Database) (data : Dados) :
  todos_com_id (d_livros data) = true →
  todos_com_id (d_alunos data) = true →
  todos_com_id (d_emprestimos data) = true →
  sem_conflito_de_indice (unico tb_livros) (d_livros data) = true →
  sem_conflito_de_indice (unico tb_alunos) (d_alunos data) = true →
  ∃ db',
    DB.importAllData db data = (Resolved tt, db')
    ∧ (∀ k, records (livros db') !! k = ultimo_com_id k (d_livros data))
    ∧ (∀ k, records (alunos db') !! k = ultimo_com_id k (d_alunos data))
    ∧ (∀ k, records (emprestimos db') !! k = ultimo_com_id k (d_emprestimos data))
    ∧ (total_armazenado db' ≤ total_de_registros data)%nat
    ∧ (id_repetido (d_livros data) ∨ id_repetido (d_alunos data)
       ∨ id_repetido (d_emprestimos data) →
       (total_armazenado db' < total_de_registros data)%nat).
Proof.
  intros Hl0 Ha0 He0 Hcl Hca.
  pose proof (proj1 (todos_com_id_spec (d_livros data)) Hl0) as Hl.
  pose proof (proj1 (todos_com_id_spec (d_alunos data)) Ha0) as Ha.
  pose proof (proj1 (todos_com_id_spec (d_emprestimos data)) He0) as He.
  pose proof (sem_conflito_de_indice_spec _ _ Hcl) as Hcl'.
  pose proof (sem_conflito_de_indice_spec _ _ Hca) as Hca'.
  assert (DB.put_lanca data = false) as Hlanca.
  { apply put_lanca_false, Forall_forall. intros r Hr.
    assert (is_Some (id_de r)) as [k Hk].
    { rewrite !elem_of_app in Hr. destruct Hr as [?|[?|?]]; auto. }
    apply id_de_Some in Hk. congruence. }
  unfold DB.importAllData, DB.importAllData_tx, IDB.clear. rewrite Hlanca.
  destruct (put_all_ultimo (unico tb_livros) (d_livros data) ∅ (keygen (livros db)) Hl Hcl')
    as (ml & gl & -> & Hml); [intros *; by rewrite lookup_empty|].
  destruct (put_all_ultimo (unico tb_alunos) (d_alunos data) ∅ (keygen (alunos db)) Ha Hca')
    as (ma & ga & -> & Hma); [intros *; by rewrite lookup_empty|].
  destruct (put_all_ultimo (unico tb_emprestimos) (d_emprestimos data) ∅
              (keygen (emprestimos db)) He)
    as (me & ge & -> & Hme); [by intros ? ? ? _ _ [=]|intros *; by rewrite lookup_empty|].
  assert (∀ (items : list objeto) (m : gmap chave objeto),
            (∀ k, m !! k = match ultimo_com_id k items with
                           | Some r => Some r
                           | None => (∅ : gmap chave objeto) !! k
                           end) →
            ∀ k, m !! k = ultimo_com_id k items) as Hsimp.
  { intros items m Hm k. rewrite Hm, lookup_empty. by destruct (ultimo_com_id k items). }
  pose proof (Hsimp _ _ Hml) as Hml'. pose proof (Hsimp _ _ Hma) as Hma'.
  pose proof (Hsimp _ _ Hme) as Hme'. clear Hml Hma Hme Hsimp.
  destruct (size_ultimo (d_livros data) ml Hl Hml') as [Hsl Hrl].
  destruct (size_ultimo (d_alunos data) ma Ha Hma') as [Hsa Hra].
  destruct (size_ultimo (d_emprestimos data) me He Hme') as [Hse Hre].
  eexists. split; [reflexivity|]. cbn [livros alunos emprestimos records].
  split; [done|]. split; [done|]. split; [done|].
  unfold total_armazenado, total_de_registros. cbn [livros alunos emprestimos records].
  split; [lia|]. intros [Hr|[Hr|Hr]].
  - apply Hrl in Hr. lia.
  - apply Hra in Hr. lia.
  - apply Hre in Hr. lia.
Qed.

Lemma importAllData_duplicate_ids_witness :
  ∃ db',
    DB.importAllData Exemplo.db_emprestado Exemplo.dados_id_repetido = (Resolved tt, db')
    ∧ records (livros db') !! KNum 1
      = Some (Exemplo.livro 1 (js "A, 2a edicao") (js "X") (js "111") (JNum 5) (JNum 5))
    ∧ (total_armazenado db' < total_de_registros Exemplo.dados_id_repetido)%nat.
Proof.
  destruct (importAllData_duplicate_ids Exemplo.db_emprestado Exemplo.dados_id_repetido)
    as (db' & Himp & Hl & _ & _ & _ & Hlt); try (vm_compute; reflexivity).
  exists db'. split; [exact Himp|]. split.
  - rewrite Hl. vm_compute. reflexivity.
  - apply Hlt. left. exists 0%nat, 2%nat. do 2 eexists. exists (KNum 1).
    split; [done|]. split; [reflexivity|]. split; [reflexivity|].
    split; vm_compute; reflexivity.
Defined.

(** * Further properties of the data layer and the controllers *)

(** ** What the reachable states have in common *)



(** ** Saving and reading back *)



(** ** The import pipeline *)

(** X3. The import pipeline changes everything or nothing: it ends either
    with "Restauração concluída" on the database that [importAllData]
    committed, or, refused, cancelled or rolled back, on the database exactly
    as it was. A failed rollback does not occur, and no promise is left
    pending. *)
Theorem handleImportarDados_all_or_nothing (db db' : Database) (j : json)
    (confirmado : bool) (r : Script.Importacao) :
  db_ok db →
  Script.handleImportarDados db j confirmado = (r, db') →
  (r = Script.RestauracaoConcluida
   ∧ confirmado = true ∧ validarBackup j = Ok
   ∧ DB.importAllData db (Script.dados_de_json j) = (Resolved tt, db'))
  ∨ (db' = db
     ∧ (r = Script.ImportacaoCancelada ∧ confirmado = false ∧ validarBackup j = Ok
        ∨ (r = Script.RollbackExecutado ∧ confirmado = true ∧ validarBackup j = Ok
           ∧ ∃ e, DB.importAllData db (Script.dados_de_json j) = (Rejected e, db))
        ∨ ∃ e, r = Script.ImportacaoRecusada e ∧ validarBackup j = Throw e)).
Proof.
  intros Hok. unfold Script.handleImportarDados.
  destruct (validarBackup j) as [|e] eqn:Hval.
  2: { intros [= <- <-]. right. split; [done|]. right. right. by exists e. }
  destruct confirmado; cbn [negb].
  2: { intros [= <- <-]. right. split; [done|]. by left. }
  destruct (DB.importAllData db (Script.dados_de_json j)) as [[[]|e|] db1] eqn:Himp.
  - intros [= <- <-]. left. by repeat split.
  - apply importAllData_rejected in Himp as Hdb1. subst db1.
    destruct (importAllData_exportAllData db db Hok) as (db2 & -> & _ & _ & _ & Heq).
    intros [= <- <-]. right. rewrite Heq by done. split; [done|]. right. left.
    repeat split. by exists e.
  - by apply importAllData_nao_pendente in Himp.
Qed.

Lemma handleImportarDados_all_or_nothing_witness :
  Exemplo.db_importado = initDB
  ∨ DB.importAllData initDB (Script.dados_de_json Exemplo.arquivo_emprestimo_ativo)
    = (Resolved tt, Exemplo.db_importado).
Proof.
  destruct (handleImportarDados_all_or_nothing initDB Exemplo.db_importado
              Exemplo.arquivo_emprestimo_ativo true Script.RestauracaoConcluida initDB_ok)
    as [(_ & _ & _ & Himp)|[Heq _]].
  - vm_compute. reflexivity.
  - right. exact Himp.
  - left. exact Heq.
Defined.

(** X4. What [validarBackup] accepts: the three collections are arrays,
    [versao] and [dataExportacao] are truthy, [totalRegistros] is the number
    of items of the three arrays, [checksum] is the string that
    [gerarChecksumSimples] gives for the document without it, and every item
    is an object with the fields of its kind. Nothing is asked of the values
    of those fields. *)
Theorem validarBackup_accepts_iff (j : json) :
  validarBackup j = Ok ↔
  ∃ ls als es,
    campo (js "livros") j = Some (JArr ls)
    ∧ campo (js "alunos") j = Some (JArr als)
    ∧ campo (js "emprestimos") j = Some (JArr es)
    ∧ truthy (campo (js "versao") j) = true
    ∧ truthy (campo (js "dataExportacao") j) = true
    ∧ campo (js "totalRegistros") j
      = Some (JNum (Z.of_nat (length ls + length als + length es)))
    ∧ campo (js "checksum") j
      = Some (JStr (gerarChecksumSimples (remover_campo (js "checksum") j)))
    ∧ Forall (objeto_com_campos campos_livro) ls
    ∧ Forall (objeto_com_campos campos_aluno) als
    ∧ Forall (objeto_com_campos campos_emprestimo) es.
Proof. apply validarBackup_Ok. Qed.

(** ** The key generator of the loans *)

(** X5. A validated backup whose loan has the [id] 2^53 is imported into
    the empty database; the key generator of the loans is then past 2^53.
    The book has a copy on the shelf, and every checkout is refused with
    [ConstraintError] and changes nothing. *)
Theorem checkout_without_keys_left :
  ∃ db,
    Script.handleImportarDados initDB Exemplo.arquivo_ultima_chave true
    = (Script.RestauracaoConcluida, db)
    ∧ alcancavel db
    ∧ keygen (emprestimos db) = 2 ^ 53 + 1
    ∧ (records (livros db) !! KNum 1) ≫= prop (js "quantidadeDisponivel") = Some (JNum 1)
    ∧ Script.handleRegistrarEmprestimo db 1 1 (js "2026-01-10") (js "2026-01-03")
      = Some (Script.ErroOperacao ConstraintError, db).
Proof.
  eexists. split; [vm_compute; reflexivity|]. split; [|split; [|split]].
  - apply (alcancavel_executar_todos [ImportarDados Exemplo.arquivo_ultima_chave] initDB);
      [apply alc_inicio|vm_compute; reflexivity].
  - vm_compute. reflexivity.
  - vm_compute. reflexivity.
  - vm_compute. reflexivity.
Qed.

(** ** A checkout and its return *)



(** ** The student form *)

Section form_aluno.

Lemma indice_texto c (o : objeto) s :
  indice (Some c) o = Some (KStr s) ↔ prop c o = Some (JStr s).
Proof.
  unfold indice. destruct (prop c o) as [x|]; [|done]. split.
  - destruct x as [| | |t|items|]; cbn; try done; [by intros [= ->]|].
    by destruct (_ items).
  - by intros [= ->].
Qed.

End form_aluno.

(** X7. Saving the form of a new student. When another student already has
    the registration number, or the key generator of the students is used
    up, the form answers "Erro ao salvar aluno" and nothing changes.
    Otherwise it answers "Aluno cadastrado!", and the student is stored
    under the next generated key, with the three trimmed fields and that key
    as [id]; nothing else changes. *)
Theorem handleSalvarAluno_spec (db : Database) (f : Script.FormAluno) :
  db_ok db → Script.aluno_id f = None →
  let matricula := trim (Script.aluno_matricula f) in
  let aluno : objeto :=
    [(js "nome", JStr (trim (Script.aluno_nome f)));
     (js "matricula", JStr matricula);
     (js "turma", JStr (trim (Script.aluno_turma f)))] in
  let k := keygen (alunos db) in
  ((2 ^ 53 < k
    ∨ ∃ k' a', records (alunos db) !! k' = Some a'
               ∧ prop (js "matricula") a' = Some (JStr matricula)) →
   Script.handleSalvarAluno db f = (Script.ErroSalvarAluno, db))
  ∧ (k ≤ 2 ^ 53 →
     (∀ k' a', records (alunos db) !! k' = Some a' →
               prop (js "matricula") a' ≠ Some (JStr matricula)) →
     records (alunos db) !! KNum k = None
     ∧ Script.handleSalvarAluno db f
       = (Script.AlunoCadastrado,
          mkDB (livros db)
               (mkStore (<[KNum k := aluno ++ [(js "id", JNum k)]]> (records (alunos db)))
                        (k + 1))
               (emprestimos db))).
Proof.
  intros ((_ & Ha & _) & _) Hid matricula aluno k.
  assert (records (alunos db) !! KNum k = None ∨ 2 ^ 53 < k) as Hfree.
  { destruct (Z.le_gt_cases k (2 ^ 53)); [left|right; lia].
    by apply (keygen_livre (unico tb_alunos)). }
  assert (Script.handleSalvarAluno db f
          = match IDB.put (unico tb_alunos) (alunos db) aluno with
            | Sucesso (_, st) =>
                (Script.AlunoCadastrado, mkDB (livros db) st (emprestimos db))
            | _ => (Script.ErroSalvarAluno, db)
            end) as ->.
  { unfold Script.handleSalvarAluno, DB.save. rewrite Hid. fold matricula. fold aluno.
    cbn [ler gravar tb_alunos unico].
    by destruct (IDB.put _ _ aluno) as [?|?|[? ?]]. }
  assert (IDB.put (unico tb_alunos) (alunos db) aluno
          = if 2 ^ 53 <? k then Falha ConstraintError
            else if IDB.colide (unico tb_alunos) (records (alunos db))
                               (aluno ++ [(js "id", JNum k)])
            then Falha ConstraintError
            else Sucesso (KNum k,
                          mkStore (<[KNum k := aluno ++ [(js "id", JNum k)]]>
                                     (records (alunos db))) (k + 1))) as ->.
  { unfold IDB.put, IDB.store_record.
    change (extrair_chave aluno) with SemChave. cbv iota. fold k.
    destruct (Z.ltb_spec (2 ^ 53) k); [done|].
    destruct Hfree as [Hfree|?]; [|lia].
    cbn [andb]. by rewrite delete_id. }
  assert (indice (unico tb_alunos) (aluno ++ [(js "id", JNum k)]) = Some (KStr matricula))
    as Hind by reflexivity.
  split.
  - intros [Hk|(k' & a' & Hk' & Hm)].
    + by destruct (Z.ltb_spec (2 ^ 53) k); [|lia].
    + destruct (2 ^ 53 <? k); [done|].
      rewrite (proj2 (colide_true (unico tb_alunos) _ _)); [done|].
      exists k', a', (KStr matricula). split; [done|]. split; [done|].
      by apply indice_texto.
  - intros Hk Hnone. destruct (Z.ltb_spec (2 ^ 53) k); [lia|].
    destruct Hfree as [Hfree|?]; [|lia]. split; [done|].
    rewrite colide_false; [done|].
    intros k' a' u Hk'. rewrite Hind. intros [= <-] Hu.
    apply (Hnone k' a' Hk'). by apply indice_texto.
Qed.

Lemma handleSalvarAluno_spec_witness :
  Script.handleSalvarAluno Exemplo.db_disponivel Exemplo.form_aluno
  = (Script.ErroSalvarAluno, Exemplo.db_disponivel).
Proof.
  apply (handleSalvarAluno_spec Exemplo.db_disponivel Exemplo.form_aluno).
  - apply alcancavel_db_ok.
    apply (alcancavel_executar_todos
             [SalvarLivro Exemplo.form_livro; SalvarAluno Exemplo.form_aluno] initDB);
      [apply alc_inicio|vm_compute; reflexivity].
  - reflexivity.
  - right. exists (KNum 1), Exemplo.bento. split; vm_compute; reflexivity.
Defined.

(** ** What an import leaves of the old content *)

Section geradores_put.
Variable unico : option (list N).

(** With every record carrying its [id], the outcome of a sequence of
    [put] does not depend on the key generator. *)
Lemma put_all_gerador (items : list objeto) (m : gmap chave objeto) (g1 g2 : Z) :
  todos_com_id items = true →
  match IDB.put_all unico (mkStore m g1) items, IDB.put_all unico (mkStore m g2) items with
  | inr st1, inr st2 => records st1 = records st2
  | inl e1, inl e2 => e1 = e2
  | _, _ => False
  end.
Proof.
  revert m g1 g2. induction items as [|r items IH]; intros m g1 g2 Hids; [done|].
  cbn [todos_com_id forallb] in Hids. apply andb_true_iff in Hids as [Hr Hids].
  destruct (extrair_chave r) as [| |k] eqn:Hid; [done|done|].
  cbn [IDB.put_all]. unfold IDB.put, IDB.store_record. rewrite Hid.
  cbn [andb records keygen].
  destruct (IDB.colide _ _ r); [done|]. by apply IH.
Qed.

End geradores_put.

(** X8. When every record of the snapshot carries an [id] that is a key,
    the outcome of an import does not depend on what the database held: over
    two databases it succeeds or fails alike, with the same error, and on
    success the three stores hold the same records. *)
Theorem importAllData_ignores_previous (db1 db2 : Database) (data : Dados) :
  todos_com_id (d_livros data) = true →
  todos_com_id (d_alunos data) = true →
  todos_com_id (d_emprestimos data) = true →
  (DB.importAllData db1 data).1 = (DB.importAllData db2 data).1
  ∧ ((DB.importAllData db1 data).1 = Resolved tt →
     records (livros (DB.importAllData db1 data).2)
     = records (livros (DB.importAllData db2 data).2)
     ∧ records (alunos (DB.importAllData db1 data).2)
       = records (alunos (DB.importAllData db2 data).2)
     ∧ records (emprestimos (DB.importAllData db1 data).2)
       = records (emprestimos (DB.importAllData db2 data).2)).
Proof.
  intros Hl Ha He. unfold DB.importAllData, DB.importAllData_tx, IDB.clear.
  destruct (DB.put_lanca data); [done|].
  pose proof (put_all_gerador (unico tb_livros) (d_livros data) ∅
                (keygen (livros db1)) (keygen (livros db2)) Hl) as H1.
  pose proof (put_all_gerador (unico tb_alunos) (d_alunos data) ∅
                (keygen (alunos db1)) (keygen (alunos db2)) Ha) as H2.
  pose proof (put_all_gerador (unico tb_emprestimos) (d_emprestimos data) ∅
                (keygen (emprestimos db1)) (keygen (emprestimos db2)) He) as H3.
  destruct (IDB.put_all _ _ (d_livros data)) as [e1|ls1],
           (IDB.put_all _ _ (d_livros data)) as [e1'|ls1']; cbn [fst snd] in *;
    try done; try (by subst).
  destruct (IDB.put_all _ _ (d_alunos data)) as [e2|as1],
           (IDB.put_all _ _ (d_alunos data)) as [e2'|as1']; cbn [fst snd] in *;
    try done; try (by subst).
  destruct (IDB.put_all _ _ (d_emprestimos data)) as [e3|es1],
           (IDB.put_all _ _ (d_emprestimos data)) as [e3'|es1']; cbn [fst snd] in *;
    try done; try (by subst).
Qed.

Lemma importAllData_ignores_previous_witness :
  (DB.importAllData initDB Exemplo.dados_id_repetido).1
  = (DB.importAllData Exemplo.db_emprestado Exemplo.dados_id_repetido).1.
Proof.
  apply (importAllData_ignores_previous initDB Exemplo.db_emprestado
           Exemplo.dados_id_repetido); vm_compute; reflexivity.
Defined.

(** ** The order of [getAll] *)

Section ordem.

Lemma compara_unidades_antisym s t :
  compara_unidades t s = CompOpp (compara_unidades s t).
Proof.
  revert t. induction s as [|a s IH]; intros [|b t]; cbn; try done.
  rewrite (N.compare_antisym a b). destruct (a ?= b)%N; cbn; auto.
Qed.

Lemma chave_cmp_antisym : ∀ a b, chave_cmp b a = CompOpp (chave_cmp a b).
Proof.
  fix IH 1. intros [x|s|l] [y|t|m]; cbn; try done.
  - apply Z.compare_antisym.
  - apply compara_unidades_antisym.
  - revert m. induction l as [|a l IHl]; intros [|b m]; try done.
    rewrite (IH a b). destruct (chave_cmp a b); cbn; auto.
Qed.

#[local] Instance ordem_total : Total IDB.ordem.
Proof.
  intros a b. unfold IDB.ordem.
  destruct (chave_cmp a.1 b.1) eqn:E; [by left|by left|right].
  rewrite chave_cmp_antisym, E. done.
Qed.



End ordem.



(** ** The book form *)

(** X10. Saving the form of a new book. When another book already has the
    ISBN, or the key generator of the books is used up, the form answers
    "Erro ao salvar livro" and nothing changes. Otherwise it answers "Livro
    cadastrado!", and the book is stored under the next generated key, with
    the trimmed texts, the quantity of the form as both its total and its
    available quantity, and that key as [id]; nothing else changes. *)
Theorem handleSalvarLivro_new_book (db : Database) (f : Script.FormLivro) :
  db_ok db → Script.livro_id f = None →
  let isbn := trim (Script.livro_isbn f) in
  let livro : objeto :=
    [(js "titulo", JStr (trim (Script.livro_titulo f)));
     (js "autor", JStr (trim (Script.livro_autor f)));
     (js "isbn", JStr isbn);
     (js "quantidadeTotal", JNum (Script.livro_qtd f));
     (js "quantidadeDisponivel", JNum (Script.livro_qtd f))] in
  let k := keygen (livros db) in
  ((2 ^ 53 < k
    ∨ ∃ k' l', records (livros db) !! k' = Some l'
               ∧ prop (js "isbn") l' = Some (JStr isbn)) →
   Script.handleSalvarLivro db f = Some (Script.ErroSalvarLivro, db))
  ∧ (k ≤ 2 ^ 53 →
     (∀ k' l', records (livros db) !! k' = Some l' →
               prop (js "isbn") l' ≠ Some (JStr isbn)) →
     records (livros db) !! KNum k = None
     ∧ Script.handleSalvarLivro db f
       = Some (Script.LivroCadastrado,
               mkDB (mkStore (<[KNum k := livro ++ [(js "id", JNum k)]]> (records (livros db)))
                             (k + 1))
                    (alunos db) (emprestimos db))).
Proof.
  intros ((Hl & _ & _) & _) Hid isbn livro k.
  assert (records (livros db) !! KNum k = None ∨ 2 ^ 53 < k) as Hfree.
  { destruct (Z.le_gt_cases k (2 ^ 53)); [left|right; lia].
    by apply (keygen_livre (unico tb_livros)). }
  assert (Script.handleSalvarLivro db f
          = match IDB.put (unico tb_livros) (livros db) livro with
            | Sucesso (_, st) =>
                Some (Script.LivroCadastrado, mkDB st (alunos db) (emprestimos db))
            | _ => Some (Script.ErroSalvarLivro, db)
            end) as ->.
  { unfold Script.handleSalvarLivro, DB.save. rewrite Hid. fold isbn. fold livro.
    cbn [ler gravar tb_livros unico].
    by destruct (IDB.put _ _ livro) as [?|?|[? ?]]. }
  assert (IDB.put (unico tb_livros) (livros db) livro
          = if 2 ^ 53 <? k then Falha ConstraintError
            else if IDB.colide (unico tb_livros) (records (livros db))
                               (livro ++ [(js "id", JNum k)])
            then Falha ConstraintError
            else Sucesso (KNum k,
                          mkStore (<[KNum k := livro ++ [(js "id", JNum k)]]>
                                     (records (livros db))) (k + 1))) as ->.
  { unfold IDB.put, IDB.store_record.
    change (extrair_chave livro) with SemChave. cbv iota. fold k.
    destruct (Z.ltb_spec (2 ^ 53) k); [done|].
    destruct Hfree as [Hfree|?]; [|lia].
    cbn [andb]. by rewrite delete_id. }
  assert (indice (unico tb_livros) (livro ++ [(js "id", JNum k)]) = Some (KStr isbn))
    as Hind by reflexivity.
  split.
  - intros [Hk|(k' & l' & Hk' & Hm)].
    + by destruct (Z.ltb_spec (2 ^ 53) k); [|lia].
    + destruct (2 ^ 53 <? k); [done|].
      rewrite (proj2 (colide_true (unico tb_livros) _ _)); [done|].
      exists k', l', (KStr isbn). split; [done|]. split; [done|].
      by apply indice_texto.
  - intros Hk Hnone. destruct (Z.ltb_spec (2 ^ 53) k); [lia|].
    destruct Hfree as [Hfree|?]; [|lia]. split; [done|].
    rewrite colide_false; [done|].
    intros k' l' u Hk'. rewrite Hind. intros [= <-] Hu.
    apply (Hnone k' l' Hk'). by apply indice_texto.
Qed.

Lemma handleSalvarLivro_new_book_witness :
  Script.handleSalvarLivro Exemplo.db_disponivel Exemplo.form_livro
  = Some (Script.ErroSalvarLivro, Exemplo.db_disponivel).
Proof.
  apply (handleSalvarLivro_new_book Exemplo.db_disponivel Exemplo.form_livro).
  - apply alcancavel_db_ok.
    apply (alcancavel_executar_todos
             [SalvarLivro Exemplo.form_livro; SalvarAluno Exemplo.form_aluno] initDB);
      [apply alc_inicio|vm_compute; reflexivity].
  - reflexivity.
  - right. exists (KNum 1), (Exemplo.dom_casmurro (JNum 1) (JNum 1)).
    split; vm_compute; reflexivity.
Defined.



(** ** The self tests *)

Section testes.

Lemma peso_partes_cons p parts : peso_partes (p :: parts) = (peso p + peso_partes parts)%N.
Proof. reflexivity. Qed.

(** The weight of a serialized object as a function of one of its values,
    and of a serialized array as a function of one of its items. *)
Lemma peso_campo_livre l1 k l2 :
  ∃ c, ∀ a, peso (stringify (JObj (l1 ++ (k, a) :: l2))) = (c + peso (stringify a))%N.
Proof.
  exists (123 + (peso_partes
                   (List.map (fun kv => quote (fst kv) ++ 58%N :: stringify (snd kv)) l1)
                 + (peso (quote k) + 58)
                 + peso_partes
                     (List.map (fun kv => quote (fst kv) ++ 58%N :: stringify (snd kv)) l2)
                 + 44 * N.of_nat (pred (length (l1 ++ (k, JNull) :: l2))))
          + 125)%N.
  intros a. cbn [stringify]. rewrite peso_cons, peso_app, List.map_app. cbn [List.map fst snd].
  rewrite peso_join_comma, peso_partes_app, peso_partes_cons.
  rewrite peso_app, !peso_cons, !length_app, peso_nil. cbn [length].
  rewrite !List.length_map.
  change (is_space 123) with false. change (is_space 58) with false.
  change (is_space 125) with false. cbv iota. lia.
Qed.

Lemma peso_item_livre l1 l2 :
  ∃ c, ∀ a, peso (stringify (JArr (l1 ++ a :: l2))) = (c + peso (stringify a))%N.
Proof.
  exists (91 + (peso_partes (List.map stringify l1) + peso_partes (List.map stringify l2)
                + 44 * N.of_nat (pred (length (l1 ++ JNull :: l2))))
          + 93)%N.
  intros a. cbn [stringify]. rewrite peso_cons, peso_app, List.map_app. cbn [List.map].
  rewrite peso_join_comma, peso_partes_app, peso_partes_cons.
  rewrite !peso_cons, !length_app, peso_nil. cbn [length].
  rewrite !List.length_map.
  change (is_space 91) with false. change (is_space 93) with false. cbv iota. lia.
Qed.

Lemma payload_valido agora : agora ≠ [] → validarBackup (Testes.payload agora) = Ok.
Proof.
  intros Hagora. apply validarBackup_Ok.
  pose proof (campos_do_arquivo (JStr (js "1.0")) (JStr agora) (JNum 2)
                Testes.mockLivros Testes.mockAlunos (JArr [])) as Hc.
  cbv zeta in Hc.
  set (c := gerarChecksumSimples
              (JObj [(js "versao", JStr (js "1.0")); (js "dataExportacao", JStr agora);
                     (js "totalRegistros", JNum 2); (js "livros", Testes.mockLivros);
                     (js "alunos", Testes.mockAlunos); (js "emprestimos", JArr [])])).
  specialize (Hc (JStr c)).
  assert (Testes.payload agora
          = JObj ([(js "versao", JStr (js "1.0")); (js "dataExportacao", JStr agora);
                   (js "totalRegistros", JNum 2); (js "livros", Testes.mockLivros);
                   (js "alunos", Testes.mockAlunos); (js "emprestimos", JArr [])]
                  ++ [(js "checksum", JStr c)])) as -> by reflexivity.
  destruct Hc as (Hv & Hd & Ht & Hl & Ha & He & Hck & Hrem).
  eexists _, _, _. rewrite Hl, Ha, He, Hv, Hd, Ht, Hck, Hrem.
  split; [reflexivity|]. split; [reflexivity|]. split; [reflexivity|].
  split; [reflexivity|]. split; [by destruct agora|]. split; [reflexivity|].
  split; [reflexivity|].
  assert (∀ campos (o : objeto),
            forallb (fun c => tem_campo c (JObj o)) campos = true →
            objeto_com_campos campos (JObj o)) as Hobj.
  { intros campos o Hall. exists o. split; [done|]. intros c0 Hc0.
    rewrite forallb_forall in Hall. apply tem_campo_prop, Hall. by apply list_elem_of_In. }
  split; [|split].
  - repeat constructor. by apply Hobj.
  - repeat constructor. by apply Hobj.
  - constructor.
Qed.

Lemma corrompido_recusado agora : Testes.erroDetectado (Testes.jsonCorrompido agora) = true.
Proof.
  unfold Testes.erroDetectado.
  destruct (validarBackup _) eqn:E; [|done].
  apply validarBackup_Ok in E as (ls & als & es & Hl & _).
  change (campo (js "livros") (Testes.jsonCorrompido agora))
    with (Some (JStr (jsu "não é um array"))) in Hl.
  discriminate.
Qed.

Lemma adulterado_recusado agora :
  Testes.erroDetectado (Testes.jsonChecksumInvalido agora) = true.
Proof.
  unfold Testes.erroDetectado.
  destruct (validarBackup _) eqn:E; [|done].
  apply validarBackup_Ok in E as (ls & als & es & _ & _ & _ & _ & _ & _ & Hck & _).
  set (resto :=
         [(js "autor", JStr (js "Autor Teste")); (js "isbn", JStr (js "123"));
          (js "quantidadeTotal", JNum 5); (js "quantidadeDisponivel", JNum 5)]
         : list (list N * json)).
  set (doc := fun titulo : list N =>
         JObj ([(js "versao", JStr (js "1.0")); (js "dataExportacao", JStr agora);
                (js "totalRegistros", JNum 2)]
               ++ (js "livros",
                   JArr ([] ++ JObj ([(js "id", JNum 1)]
                                     ++ (js "titulo", JStr titulo) :: resto) :: []))
               :: [(js "alunos", Testes.mockAlunos); (js "emprestimos", JArr [])])).
  change (campo (js "checksum") (Testes.jsonChecksumInvalido agora))
    with (Some (JStr (gerarChecksumSimples (doc (js "Livro Teste"))))) in Hck.
  change (remover_campo (js "checksum") (Testes.jsonChecksumInvalido agora))
    with (doc (jsu "Título Modificado Maliciosamente")) in Hck.
  assert (∀ x y : list N, Some (JStr x) = Some (JStr y) → x = y) as Hinj
    by (by intros x y [= ->]).
  apply Hinj, gerarChecksumSimples_eq_iff in Hck.
  subst doc. cbv beta in Hck.
  destruct (peso_campo_livre
              [(js "versao", JStr (js "1.0")); (js "dataExportacao", JStr agora);
               (js "totalRegistros", JNum 2)]
              (js "livros")
              [(js "alunos", Testes.mockAlunos); (js "emprestimos", JArr [])]) as [c1 H1].
  destruct (peso_item_livre [] []) as [c2 H2].
  destruct (peso_campo_livre [(js "id", JNum 1)] (js "titulo") resto) as [c3 H3].
  rewrite !H1, !H2, !H3 in Hck.
  assert (peso (stringify (JStr (js "Livro Teste")))
          ≠ peso (stringify (JStr (jsu "Título Modificado Maliciosamente")))) as Hne.
  { vm_compute. discriminate. }
  revert Hck Hne.
  generalize (peso (stringify (JStr (js "Livro Teste"))))
             (peso (stringify (JStr (jsu "Título Modificado Maliciosamente")))).
  intros x y Hck Hne. exfalso. apply Hne. lia.
Qed.

Lemma incompleto_recusado agora :
  Testes.erroDetectado (Testes.jsonFaltandoCampo agora) = true.
Proof.
  unfold Testes.erroDetectado.
  destruct (validarBackup _) eqn:E; [|done].
  apply validarBackup_Ok in E as (ls & als & es & Hl & _ & _ & _ & _ & _ & _ & Hls & _).
  change (campo (js "livros") (Testes.jsonFaltandoCampo agora))
    with (Some (JArr [JObj [(js "id", JNum 1); (js "titulo", JStr (js "Livro Teste"));
                            (js "autor", JStr (js "Autor Teste"));
                            (js "quantidadeTotal", JNum 5);
                            (js "quantidadeDisponivel", JNum 5)]])) in Hl.
  injection Hl as <-. apply Forall_cons in Hls as [(o & [= <-] & Ho) _].
  destruct (Ho (js "isbn")) as [x Hx]; [|discriminate Hx].
  apply list_elem_of_In. vm_compute. tauto.
Qed.

End testes.

(** X12. The self tests of [tests.js] pass at any time: whatever the
    timestamp of the test payload is (it is never empty), [runTests] counts
    nine assertions, nine successes and no failure, and logs nine lines
    marked as passed. In particular the changed title of test 2.3 changes
    the checksum, and the backup of test 3 is accepted. *)
Theorem runTests_all_pass (agora : list N) :
  agora ≠ [] →
  Testes.resultados (Testes.runTests agora) = Testes.mkResultados 9 9 0
  ∧ length (Testes.logs (Testes.runTests agora)) = 9%nat
  ∧ Forall (fun log => log.1 = Testes.success) (Testes.logs (Testes.runTests agora)).
Proof.
  intros Hagora.
  assert (Testes.runTests agora
          = Testes.assert true
              (jsu "Sistema de captura de erro para rollback está funcional.")
              (Testes.assert true (jsu "Validou corretamente um JSON íntegro.")
                 (Testes.assert true
                    (jsu "Detectou ausência de campo obrigatório interno (isbn).")
                    (Testes.assert true
                       (jsu "Detectou JSON com checksum incorreto (adulteração).")
                       (Testes.assert true
                          (jsu "Detectou estrutura de dados corrompida (arrays inválidos).")
                          (Testes.assert true
                             (jsu "Detectou JSON sem campos obrigatórios na raiz.")
                             (Testes.assert true
                                (js "Total de registros calculado corretamente.")
                                (Testes.assert true
                                   (js "Checksum foi gerado como string hexadecimal.")
                                   (Testes.assert true
                                      (jsu "Estrutura de exportação contém versão correta.")
                                      (Testes.mkEstado (Testes.mkResultados 0 0 0) [])))))))))
         ) as ->.
  { unfold Testes.runTests. cbv zeta.
    rewrite (corrompido_recusado agora), (adulterado_recusado agora),
      (incompleto_recusado agora).
    assert (Testes.erroDetectado (Testes.payload agora) = false) as ->.
    { unfold Testes.erroDetectado. by rewrite (payload_valido agora Hagora). }
    reflexivity. }
  split; [reflexivity|]. split; [reflexivity|].
  repeat constructor.
Qed.

Lemma runTests_all_pass_witness :
  Testes.resultados (Testes.runTests (js "2026-01-03T10:00:00.000Z"))
  = Testes.mkResultados 9 9 0.
Proof.
  apply (runTests_all_pass (js "2026-01-03T10:00:00.000Z")).
  vm_compute. discriminate.
Defined.

(** ** Dates on screen *)

Section datas.

Lemma split_sem_separador sep (s : list N) : sep ∉ s → split sep s = [s].
Proof.
  induction s as [|c s IH]; intros Hs; [done|].
  apply not_elem_of_cons in Hs as [Hc Hs]. cbn [split].
  destruct (N.eqb_spec c sep) as [->|_]; [done|]. by rewrite IH.
Qed.

Lemma split_separador sep (a rest : list N) :
  sep ∉ a → split sep (a ++ sep :: rest) = a :: split sep rest.
Proof.
  induction a as [|c a IH]; intros Ha.
  - cbn. by rewrite N.eqb_refl.
  - apply not_elem_of_cons in Ha as [Hc Ha]. cbn [app split].
    destruct (N.eqb_spec c sep) as [->|_]; [done|]. by rewrite IH.
Qed.

End datas.

(** X13. [formatarData] turns YEAR-MONTH-DAY into DAY/MONTH/YEAR, whatever
    the three parts are as long as they hold no hyphen; a string with no
    hyphen at all comes out as "undefined/undefined/" followed by the string;
    the empty string, [null] and [undefined] come out as "-". *)
Theorem formatarData_spec (ano mes dia : list N) :
  45%N ∉ ano → 45%N ∉ mes → 45%N ∉ dia →
  formatarData (Some (ano ++ 45%N :: mes ++ 45%N :: dia)) = dia ++ 47%N :: mes ++ 47%N :: ano
  ∧ (ano ≠ [] →
     formatarData (Some ano) = js "undefined/undefined/" ++ ano)
  ∧ formatarData (Some []) = js "-"
  ∧ formatarData None = js "-".
Proof.
  intros Ha Hm Hd. split; [|split; [|done]].
  - unfold formatarData.
    destruct (ano ++ 45%N :: mes ++ 45%N :: dia) as [|c s] eqn:E.
    { by destruct ano. }
    rewrite <- E. cbv zeta.
    rewrite (split_separador 45 ano) by done.
    rewrite (split_separador 45 mes) by done.
    by rewrite (split_sem_separador 45 dia).
  - intros Hne. unfold formatarData. destruct ano as [|c s]; [done|].
    cbv zeta. by rewrite (split_sem_separador 45 (c :: s)).
Qed.

Lemma formatarData_spec_witness :
  formatarData (Some (js "2026-01-10")) = js "10/01/2026".
Proof.
  apply (formatarData_spec (js "2026") (js "01") (js "10"));
    apply (bool_decide_unpack _); vm_compute; exact I.
Defined.
